(** * Scheduling & Conflict Resolver Agent (src/Sheduling_Agent.py)

    A shallow embedding of the scheduling backend: the events table, the
    pairwise conflict scan, the greedy free-slot search, the rule-based
    suggestion builder and the apply / explain adapters, followed by the
    properties of the design document that concern them.

    Representation choices.
    - A naive [datetime] is the integer number of microseconds since
      midnight of day 0 of the proleptic calendar; a [timedelta] is a number
      of microseconds.  Order, subtraction and [+ timedelta] of naive
      datetimes are exactly those of this linear count.  The calendar range
      (years 1..9999, beyond which Python raises OverflowError) is not
      modelled: where the model returns a value the code returns the same
      value or raises.
    - A calendar [date] is the day ordinal [dt / 86400000000].
    - An ISO text stored in the table or placed in a suggestion is
      represented by the instant it denotes ([iso]); [fromisoformat] is then
      the identity and [isoformat (timespec="minutes")], which prints the
      fields down to the minute, is truncation to the minute.  Texts are
      taken to be in one format, so that [ORDER BY start_iso] orders them
      as instants.
    - [datetime.now()] and the chat model are inputs of the functions that
      use them (Section variables [now], [USE_LLM], [llm_invoke]).
    - [timedelta.total_seconds() // 60] is taken as exact floor division
      (it is exact for every duration that is a whole number of seconds). *)

From Stdlib Require Import ZArith Lia.
From stdpp Require Import base decidable option list list_numbers sorting gmap strings.
Local Open Scope Z_scope.

(** ** datetime / timedelta *)

Module DateTime.

Abbreviation datetime := Z (only parsing).
Abbreviation timedelta := Z (only parsing).
Abbreviation date := Z (only parsing).
Abbreviation iso := Z (only parsing).

(** [timedelta(minutes=m)], [timedelta(hours=h)], [timedelta(days=d)] *)
Definition minutes (m : Z) : timedelta := m * 60000000.
Definition hours (h : Z) : timedelta := h * 3600000000.
Definition days (d : Z) : timedelta := d * 86400000000.

(** [dt.date()] *)
Definition date_of (dt : datetime) : date := dt / days 1.
(** [dt.minute] *)
Definition minute_of (dt : datetime) : Z := (dt / minutes 1) mod 60.
(** [dt.replace(minute=0, second=0, microsecond=0)] *)
Definition replace_minute0_second0_microsecond0 (dt : datetime) : datetime :=
  dt / hours 1 * hours 1.
(** [datetime.combine(day, datetime.min.time())] *)
Definition combine_min_time (day : date) : datetime := days day.
(** [int(td.total_seconds() // 60)] *)
Definition total_seconds_floordiv_60 (td : timedelta) : Z := td / minutes 1.

(** [datetime.fromisoformat(s)] *)
Definition fromisoformat (s : iso) : datetime := s.
(** [dt.isoformat(timespec="minutes")] *)
Definition isoformat_minutes (dt : datetime) : iso := dt / minutes 1 * minutes 1.

(** The instant [day] at [h:m:s] (used to write down concrete inputs). *)
Definition at_hms (day : date) (h m s : Z) : datetime :=
  days day + hours h + minutes m + s * 1000000.
Definition at_hm (day : date) (h m : Z) : datetime := at_hms day h m 0.

End DateTime.
Import DateTime.

(** ** The events table *)

(** One row of [events]; the primary key [id] is the key of the map. *)
Record row := Row {
  row_title : string;
  row_start_iso : iso;
  row_end_iso : iso;
  row_place : string
}.

(** The dict built per row by [list_events_db]. *)
Record raw_event := RawEvent {
  raw_id : Z;
  raw_title : string;
  raw_start : iso;
  raw_end : iso;
  raw_place : string
}.

(** [ORDER BY start_iso].  Rows with the same [start_iso] come out in the
    order the sort leaves them; SQL does not fix it. *)
Definition by_start_iso (r1 r2 : Z * row) : Prop :=
  row_start_iso r1.2 <= row_start_iso r2.2.

Global Instance by_start_iso_dec : RelDecision by_start_iso.
Proof. intros r1 r2. unfold by_start_iso. apply _. Defined.

(** Lines 70-77: the dict built from a fetched row. *)
Definition row_dict (r : Z * row) : raw_event :=
  RawEvent r.1 (row_title r.2) (row_start_iso r.2) (row_end_iso r.2) (row_place r.2).

Definition list_events_db (db : gmap Z row) : list raw_event :=
  let rows := merge_sort by_start_iso (map_to_list db) in
  row_dict <$> rows.

(** [UPDATE events SET start_iso = ?, end_iso = ? WHERE id = ?] *)
Definition update_event_time_db (event_id : Z) (new_start_iso new_end_iso : iso)
    (db : gmap Z row) : gmap Z row :=
  alter (fun r => Row (row_title r) new_start_iso new_end_iso (row_place r)) event_id db.

(** ** Scheduling logic *)

(** The dict with parsed [start] / [end] used by the scheduling functions. *)
Record event := Event {
  ev_id : Z;
  ev_title : string;
  ev_start : datetime;
  ev_end : datetime;
  ev_place : string
}.

(** The loop that parses each listed row (lines 121-128 and 173-180). *)
Definition parse_events (raw : list raw_event) : list event :=
  (fun r => Event (raw_id r) (raw_title r) (fromisoformat (raw_start r))
                  (fromisoformat (raw_end r)) (raw_place r)) <$> raw.

(** The test of line 134: [a["start"] < b["end"] and b["start"] < a["end"]]. *)
Definition overlaps (a_start a_end b_start b_end : datetime) : bool :=
  (a_start <? b_end) && (b_start <? a_end).

(** Lines 129-136: [for i in range(n): for j in range(i+1, n): ...]. *)
Definition scan_conflicts (evs : list event) : list (event * event) :=
  let n := length evs in
  i ← seq 0 n;
  j ← seq (i + 1) (n - (i + 1));
  match evs !! i, evs !! j with
  | Some a, Some b =>
      if overlaps (ev_start a) (ev_end a) (ev_start b) (ev_end b)
      then [(a, b)] else []
  | _, _ => []
  end.

Definition check_conflicts (db : gmap Z row) : list (event * event) :=
  let evs := parse_events (list_events_db db) in
  scan_conflicts evs.

Definition round_up_to_5min (dt : datetime) : datetime :=
  let minute := (minute_of dt + 4) / 5 * 5 in
  replace_minute0_second0_microsecond0 dt + minutes minute.

(** ** Free-slot search *)

(** Order of [busy.sort()] on [(start, end)] tuples. *)
Definition tuple_le (x y : Z * Z) : Prop :=
  x.1 < y.1 \/ (x.1 = y.1 /\ x.2 <= y.2).

Global Instance tuple_le_dec : RelDecision tuple_le.
Proof. intros x y. unfold tuple_le. apply _. Defined.

(** Lines 149-153: the windows of the events that start on [day], sorted. *)
Definition busy_on (all_events : list event) (day : date) : list (datetime * datetime) :=
  merge_sort tuple_le
    (omap (fun ev => if decide (date_of (ev_start ev) = day)
                     then Some (ev_start ev, ev_end ev) else None) all_events).

(** Lines 161-164: [inl slot] is the [return cursor] inside the loop,
    [inr cursor] the cursor with which the loop falls through. *)
Fixpoint scan_busy (duration : timedelta) (cursor : datetime)
    (busy : list (datetime * datetime)) : datetime + datetime :=
  match busy with
  | [] => inr cursor
  | (b_start, b_end) :: rest =>
      if decide (cursor + duration <= b_start) then inl cursor
      else scan_busy duration (Z.max cursor b_end) rest
  end.

(** The body of [for day_offset in range(search_days)] (lines 148-166):
    [Some slot] is a [return], [None] goes on to the next day. *)
Definition try_day (all_events : list event) (duration : timedelta)
    (probe : datetime) (day_offset : Z) : option datetime :=
  let day := date_of (probe + days day_offset) in
  let busy := busy_on all_events day in
  let day_start := combine_min_time day + hours 8 in
  let day_end := combine_min_time day + hours 21 in
  let cursor := if decide (day_offset = 0) then Z.max probe day_start else day_start in
  match busy with
  | [] => if decide (cursor + duration <= day_end) then Some cursor else None
  | _ =>
      match scan_busy duration cursor busy with
      | inl slot => Some slot
      | inr cursor => if decide (cursor + duration <= day_end) then Some cursor else None
      end
  end.

Fixpoint first_day (all_events : list event) (duration : timedelta)
    (probe : datetime) (day_offsets : list Z) : option datetime :=
  match day_offsets with
  | [] => None
  | day_offset :: rest =>
      match try_day all_events duration probe day_offset with
      | Some slot => Some slot
      | None => first_day all_events duration probe rest
      end
  end.

(** [range(n)] *)
Definition range (n : Z) : list Z := seqZ 0 n.

(** ** Suggestions *)

(** The ["move_event"] dict of a suggestion. *)
Record move_event_dict := MoveEvent {
  me_id : Z;
  me_title : string;
  me_start_iso : iso;
  me_end_iso : iso;
  me_place : string
}.

Record suggestion_dict := SuggestionDict {
  sd_move_event : move_event_dict;
  sd_new_start_iso : iso;
  sd_new_end_iso : iso;
  sd_reason : string
}.

Section Clock.

(** The value [datetime.now()] reads, used only when [after_time] is None. *)
Variable now : datetime.

Definition find_free_slot (all_events : list event) (duration_minutes : Z)
    (after_time : option datetime) (search_days : Z) : option datetime :=
  let after_time := match after_time with None => now | Some t => t end in
  let probe := round_up_to_5min after_time in
  let duration := minutes duration_minutes in
  first_day all_events duration probe (range search_days).

Definition reason_no_slot : string :=
  "No free slot in 7 days; suggested immediate after the conflicting event".

(** The body of [for a, b in conflicts] (lines 183-207). *)
Definition suggest (all_events : list event) (ab : event * event) : suggestion_dict :=
  let '(a, b) := ab in
  let to_move_is_b := bool_decide (ev_start b >= ev_start a) in
  let to_move := if to_move_is_b then b else a in
  let keep := if to_move_is_b then a else b in
  let duration_minutes := total_seconds_floordiv_60 (ev_end to_move - ev_start to_move) in
  let slot := find_free_slot all_events duration_minutes (Some (ev_end keep)) 7 in
  let '(new_start, new_end, reason) :=
    match slot with
    | Some slot =>
        (slot, slot + minutes duration_minutes,
         "Resolve overlap with '" +:+ ev_title keep +:+ "'")
    | None =>
        (ev_end keep, ev_end keep + (ev_end to_move - ev_start to_move), reason_no_slot)
    end in
  SuggestionDict
    (MoveEvent (ev_id to_move) (ev_title to_move)
               (isoformat_minutes (ev_start to_move))
               (isoformat_minutes (ev_end to_move))
               (ev_place to_move))
    (isoformat_minutes new_start)
    (isoformat_minutes new_end)
    reason.

Definition rule_based_suggestions (db : gmap Z row) : list suggestion_dict :=
  let conflicts := check_conflicts db in
  let all_events := parse_events (list_events_db db) in
  suggest all_events <$> conflicts.

End Clock.

(** ** API models and endpoints *)

Record EventOut := mkEventOut {
  eo_id : Z;
  eo_title : string;
  eo_start_iso : iso;
  eo_end_iso : iso;
  eo_place : option string
}.

Record Suggestion := mkSuggestion {
  move_event : EventOut;
  new_start_iso : iso;
  new_end_iso : iso;
  reason : string;
  llm_explanation : option string
}.

(** What an endpoint hands back: its return value, or a raised HTTPException. *)
Inductive response (A : Type) : Type :=
| Returns (body : A)
| HTTPException (status_code : Z) (detail : string).
Arguments Returns {A} body.
Arguments HTTPException {A} status_code detail.

(** The dict returned by [/apply_suggestion]. *)
Record apply_body := ApplyBody {
  status : string;
  applied_event_id : Z
}.

(** What the [try] block of [llm_explain_suggestion] does: [llm.invoke]
    answers with [resp.content], or something in the block raises [e]. *)
Inductive llm_outcome : Type :=
| Content (text : string)
| Raised (e : string).

Section Narrator.

(** The module-level flag and the chat model behind [llm.invoke]; the
    arguments are the five fields substituted into the prompt. *)
Variable USE_LLM : bool.
Variable llm_invoke : string -> iso -> iso -> iso -> iso -> llm_outcome.

Definition llm_explain_suggestion (sugg : suggestion_dict) : option string :=
  if negb USE_LLM then None
  else
    match llm_invoke (me_title (sd_move_event sugg))
                     (me_start_iso (sd_move_event sugg))
                     (me_end_iso (sd_move_event sugg))
                     (sd_new_start_iso sugg) (sd_new_end_iso sugg) with
    | Content text => Some text
    | Raised e => Some ("(LLM failed: " +:+ e +:+ ")")
    end.

Variable now : datetime.

Definition api_suggestions (db : gmap Z row) : response (list Suggestion) :=
  let sugs := rule_based_suggestions now db in
  Returns
    ((fun s =>
        let llm_text := llm_explain_suggestion s in
        mkSuggestion
          (mkEventOut (me_id (sd_move_event s)) (me_title (sd_move_event s))
                      (me_start_iso (sd_move_event s)) (me_end_iso (sd_move_event s))
                      (Some (me_place (sd_move_event s))))
          (sd_new_start_iso s) (sd_new_end_iso s) (sd_reason s) llm_text) <$> sugs).

End Narrator.

(** [/apply_suggestion]: the table after the call and the response. *)
Definition api_apply_suggestion (s : Suggestion) (db : gmap Z row)
    : gmap Z row * response apply_body :=
  let ev := move_event s in
  let db := update_event_time_db (eo_id ev) (new_start_iso s) (new_end_iso s) db in
  (db, Returns (ApplyBody "ok" (eo_id ev))).

(** ** Vocabulary of the properties *)

(** The index pairs [(i, j)], [i < j < n], as the two nested loops of
    [check_conflicts] visit them. *)
Definition index_pairs (n : nat) : list (nat * nat) :=
  i ← seq 0 n; pair i <$> seq (i + 1) (n - (i + 1)).

(** Lexicographic order on index pairs. *)
Definition index_lt (p q : nat * nat) : Prop :=
  (p.1 < q.1 ∨ (p.1 = q.1 ∧ p.2 < q.2))%nat.

(** The events at a pair of positions. *)
Definition pair_at (evs : list event) (p : nat * nat) : option (event * event) :=
  a ← evs !! p.1; b ← evs !! p.2; Some (a, b).

Definition conflicting (a b : event) : bool :=
  overlaps (ev_start a) (ev_end a) (ev_start b) (ev_end b).

(** The visit of one index pair by the inner loop body. *)
Definition conflict_at (evs : list event) (p : nat * nat) : option (event * event) :=
  ab ← pair_at evs p; if conflicting ab.1 ab.2 then Some ab else None.

(** Half-open windows [[start, end)] that share an instant. *)
Definition windows_overlap (a b : event) : Prop :=
  ev_start a < ev_end b ∧ ev_start b < ev_end a.

Definition pairwise_disjoint (evs : list event) : Prop :=
  ∀ i j a b, (i < j)%nat → evs !! i = Some a → evs !! j = Some b →
    ¬ windows_overlap a b.

Definition mutually_overlapping (evs : list event) : Prop :=
  ∀ i j a b, (i < j)%nat → evs !! i = Some a → evs !! j = Some b →
    windows_overlap a b.

(** Seconds and microseconds are zero. *)
Definition whole_minute (dt : datetime) : Prop := dt mod minutes 1 = 0.

(** The minute is a multiple of 5 and seconds and microseconds are zero. *)
Definition on_5min_boundary (dt : datetime) : Prop :=
  minute_of dt mod 5 = 0 ∧ whole_minute dt.

(** The event dict the scheduling functions build from a stored row. *)
Definition event_of_row (id : Z) (r : row) : event :=
  Event id (row_title r) (row_start_iso r) (row_end_iso r) (row_place r).

(** Every stored timestamp is on a whole minute. *)
Definition whole_minute_table (db : gmap Z row) : Prop :=
  ∀ id r, db !! id = Some r →
    whole_minute (row_start_iso r) ∧ whole_minute (row_end_iso r).

(** *** Concrete tables *)

(** Scenario A on day 738000: X = [09:00, 10:00), Y = [09:30, 10:30). *)
Definition scenario_A_db : gmap Z row :=
  <[2 := Row "Y" (at_hm 738000 9 30) (at_hm 738000 10 30) ""]>
    {[1 := Row "X" (at_hm 738000 9 0) (at_hm 738000 10 0) ""]}.

(** As scenario A, but Y starts at 09:30:30. *)
Definition seconds_db : gmap Z row :=
  <[2 := Row "Y" (at_hms 738000 9 30 30) (at_hm 738000 10 30) ""]>
    {[1 := Row "X" (at_hm 738000 9 0) (at_hm 738000 10 0) ""]}.

(** A = [19:30, 20:30), B = [20:00, 21:00), C = [22:00, 23:00). *)
Definition evening_db : gmap Z row :=
  <[3 := Row "C" (at_hm 738000 22 0) (at_hm 738000 23 0) ""]>
    (<[2 := Row "B" (at_hm 738000 20 0) (at_hm 738000 21 0) ""]>
       {[1 := Row "A" (at_hm 738000 19 30) (at_hm 738000 20 30) ""]}).

(** Two overlapping 14-hour events: no working day has room for the mover. *)
Definition long_db : gmap Z row :=
  <[2 := Row "B" (at_hm 738000 8 30) (at_hm 738000 22 30) ""]>
    {[1 := Row "A" (at_hm 738000 8 0) (at_hm 738000 22 0) ""]}.

(** A narrator whose every call raises. *)
Definition failing_llm (_ : string) (_ _ _ _ : iso) : llm_outcome := Raised "boom".

(** A suggestion that names an event id no table here contains. *)
Definition stray_suggestion : Suggestion :=
  mkSuggestion (mkEventOut 42 "ghost" (at_hm 738000 9 0) (at_hm 738000 10 0) None)
    (at_hm 738000 11 0) (at_hm 738000 12 0) "Resolve overlap with 'X'" None.

(** The [Suggestion] model built by [/suggestions] from a suggestion dict,
    explanation aside. *)
Definition same_proposal (s : suggestion_dict) (r : Suggestion) : Prop :=
  eo_id (move_event r) = me_id (sd_move_event s) ∧
  eo_title (move_event r) = me_title (sd_move_event s) ∧
  eo_start_iso (move_event r) = me_start_iso (sd_move_event s) ∧
  eo_end_iso (move_event r) = me_end_iso (sd_move_event s) ∧
  eo_place (move_event r) = Some (me_place (sd_move_event s)) ∧
  new_start_iso r = sd_new_start_iso s ∧
  new_end_iso r = sd_new_end_iso s ∧
  reason r = sd_reason s.

(** Back-to-back events: the second starts when the first ends. *)
Definition morning_a : event := Event 1 "a" (at_hm 738000 9 0) (at_hm 738000 10 0) "".
Definition morning_b : event := Event 2 "b" (at_hm 738000 10 0) (at_hm 738000 11 0) "".

(** Scenario C: three events that overlap one another. *)
Definition overlap_p : event := Event 1 "p" (at_hm 738000 9 0) (at_hm 738000 11 0) "".
Definition overlap_q : event := Event 2 "q" (at_hm 738000 9 30) (at_hm 738000 10 30) "".
Definition overlap_r : event := Event 3 "r" (at_hm 738000 10 0) (at_hm 738000 12 0) "".

(** The suggestion of scenario A as [/suggestions] returns it without a
    narrator, ready to be posted to [/apply_suggestion]. *)
Definition scenario_A_accepted : Suggestion :=
  mkSuggestion
    (mkEventOut 2 "Y" (at_hm 738000 9 30) (at_hm 738000 10 30) (Some ""))
    (at_hm 738000 10 30) (at_hm 738000 11 30) "Resolve overlap with 'X'" None.

(** ** Insertion, listing and clearing (the other endpoints) *)

(** The database file: the [events] table and the AUTOINCREMENT counter
    SQLite keeps for it in [sqlite_sequence] (0 while no row was ever
    inserted).  [init_db] at startup leaves an existing file as it is. *)
Record database := Database {
  db_events : gmap Z row;
  db_sequence : Z
}.

(** The largest rowid in the table, 0 for the empty table. *)
Definition max_rowid (events : gmap Z row) : Z :=
  foldr Z.max 0 (map_to_list events).*1.

(** What [add_event_db] hands back: [c.lastrowid], or a raised ValueError
    with its message. *)
Inductive add_result : Type :=
| LastRowId (ev_id : Z)
| ValueError (msg : string).

(** Lines 47-61.  The new rowid of an AUTOINCREMENT key is one more than
    the larger of the stored counter and the largest rowid in the table.
    A text that [fromisoformat] rejects raises ValueError at lines 48-49
    before anything is written; such texts have no representative here. *)
Definition add_event_db (title : string) (start_iso end_iso : iso)
    (place : option string) (d : database) : database * add_result :=
  let s := fromisoformat start_iso in
  let e := fromisoformat end_iso in
  if decide (e <= s) then (d, ValueError "end must be after start")
  else
    let ev_id := Z.max (db_sequence d) (max_rowid (db_events d)) + 1 in
    (Database (<[ev_id := Row title start_iso end_iso (default "" place)]> (db_events d))
              ev_id,
     LastRowId ev_id).

(** Lines 87-90: the file is removed and created afresh. *)
Definition clear_db (d : database) : database := Database ∅ 0.

Record EventIn := mkEventIn {
  ei_title : string;
  ei_start_iso : iso;
  ei_end_iso : iso;
  ei_place : option string
}.

Record ConflictPair := mkConflictPair {
  cp_a : EventOut;
  cp_b : EventOut
}.

(** [/add] *)
Definition add_event (e : EventIn) (d : database) : database * response EventOut :=
  match add_event_db (ei_title e) (ei_start_iso e) (ei_end_iso e) (ei_place e) d with
  | (d, ValueError ve) => (d, HTTPException 400 ve)
  | (d, LastRowId ev_id) =>
      (d, Returns (mkEventOut ev_id (ei_title e) (ei_start_iso e) (ei_end_iso e)
                              (ei_place e)))
  end.

(** [/events] *)
Definition get_events (db : gmap Z row) : response (list EventOut) :=
  let rows := list_events_db db in
  Returns ((fun r => mkEventOut (raw_id r) (raw_title r) (raw_start r) (raw_end r)
                                (Some (raw_place r))) <$> rows).

(** [/conflicts] *)
Definition api_conflicts (db : gmap Z row) : response (list ConflictPair) :=
  let conflicts := check_conflicts db in
  Returns
    ((fun ab : event * event =>
        let (a, b) := ab in
        mkConflictPair
          (mkEventOut (ev_id a) (ev_title a) (isoformat_minutes (ev_start a))
                      (isoformat_minutes (ev_end a)) (Some (ev_place a)))
          (mkEventOut (ev_id b) (ev_title b) (isoformat_minutes (ev_start b))
                      (isoformat_minutes (ev_end b)) (Some (ev_place b))))
       <$> conflicts).

(** [/clear_db] *)
Definition api_clear_db (d : database) : database * response string :=
  (clear_db d, Returns "cleared").

(** ** Further vocabulary *)

(** Every stored row ends after it starts (what [add_event_db] checks). *)
Definition well_formed_table (db : gmap Z row) : Prop :=
  ∀ id r, db !! id = Some r → row_start_iso r < row_end_iso r.

(** The counter is not negative and at least every id in the table, and
    ids are positive. *)
Definition sequence_covers (d : database) : Prop :=
  0 ≤ db_sequence d ∧
  ∀ id r, db_events d !! id = Some r → 0 < id ≤ db_sequence d.

(** The instant [t] and the [duration] after it lie within 08:00-21:00 of
    [t]'s day. *)
Definition in_working_hours (t : datetime) (duration : timedelta) : Prop :=
  days (date_of t) + hours 8 ≤ t ∧ t + duration ≤ days (date_of t) + hours 21.

(** Some event that starts on the day of [t] overlaps [[t, t + duration)]. *)
Definition blocked (all_events : list event) (t : datetime) (duration : timedelta) : Prop :=
  ∃ ev, ev ∈ all_events ∧ date_of (ev_start ev) = date_of t ∧
        overlaps t (t + duration) (ev_start ev) (ev_end ev) = true.

(** The cursor with which the search of the day at [day_offset] starts
    (line 156). *)
Definition day_cursor (probe : datetime) (day_offset : Z) : datetime :=
  let day_start := days (date_of (probe + days day_offset)) + hours 8 in
  if decide (day_offset = 0) then Z.max probe day_start else day_start.

(** One event that fills the working hours of day 738000. *)
Definition booked_day : list event :=
  [Event 1 "all day" (at_hm 738000 8 0) (at_hm 738000 21 0) ""].

(** The snapshot the scheduling functions work on. *)
Definition snapshot (db : gmap Z row) : list event :=
  parse_events (list_events_db db).

(** The table of scenario A with its counter, and a request to add a third
    event with no place. *)
Definition scenario_A_database : database := Database scenario_A_db 2.

Definition lunch_request : EventIn :=
  mkEventIn "lunch" (at_hm 738000 12 0) (at_hm 738000 13 0) None.

(** A suggestion to move X of scenario A to the afternoon. *)
Definition move_X_suggestion : Suggestion :=
  mkSuggestion
    (mkEventOut 1 "X" (at_hm 738000 9 0) (at_hm 738000 10 0) (Some ""))
    (at_hm 738000 14 0) (at_hm 738000 15 0) "Resolve overlap with 'Y'" None.

(** * Properties *)

(** ** Conflict detection *)

Lemma overlaps_spec s1 e1 s2 e2 :
  overlaps s1 e1 s2 e2 = true ↔ s1 < e2 ∧ s2 < e1.
Proof.
  unfold overlaps. rewrite andb_true_iff, !Z.ltb_lt. done.
Qed.

Lemma overlaps_false s1 e1 s2 e2 :
  overlaps s1 e1 s2 e2 = false ↔ e2 ≤ s1 ∨ e1 ≤ s2.
Proof.
  unfold overlaps. rewrite andb_false_iff, !Z.ltb_ge. done.
Qed.

Lemma conflicting_spec a b : conflicting a b = true ↔ windows_overlap a b.
Proof. apply overlaps_spec. Qed.

Lemma conflicting_false a b : conflicting a b = false ↔ ¬ windows_overlap a b.
Proof. rewrite <- conflicting_spec. by destruct (conflicting a b). Qed.

Lemma inner_loop_omap evs i (js : list nat) :
  (js ≫= λ j,
     match evs !! i, evs !! j with
     | Some a, Some b =>
         if overlaps (ev_start a) (ev_end a) (ev_start b) (ev_end b)
         then [(a, b)] else []
     | _, _ => []
     end) = omap (conflict_at evs) (pair i <$> js).
Proof.
  induction js as [|j js IH]; [done|].
  rewrite bind_cons, IH, fmap_cons. cbn [omap list_omap].
  unfold conflict_at at 2, pair_at, conflicting. simpl.
  destruct (evs !! i) as [a|]; simpl; [|done].
  destruct (evs !! j) as [b|]; simpl; [|done].
  by destruct (overlaps _ _ _ _).
Qed.

Lemma omap_bind {A B C} (f : B → option C) (g : A → list B) (l : list A) :
  omap f (l ≫= g) = l ≫= λ x, omap f (g x).
Proof.
  induction l as [|x l IH]; [done|].
  by rewrite !bind_cons, omap_app, IH.
Qed.

Lemma scan_conflicts_omap evs :
  scan_conflicts evs = omap (conflict_at evs) (index_pairs (length evs)).
Proof.
  unfold scan_conflicts, index_pairs. rewrite omap_bind.
  apply list_bind_ext; [|done]. intros i. apply inner_loop_omap.
Qed.

Lemma elem_of_index_pairs n i j :
  (i, j) ∈ index_pairs n ↔ (i < j < n)%nat.
Proof.
  unfold index_pairs. rewrite list_elem_of_bind. split.
  - intros (i' & Hin & Hi'). apply list_elem_of_fmap in Hin as (j' & [= -> ->] & Hj').
    apply elem_of_seq in Hi', Hj'. lia.
  - intros Hij. exists i. split; [|apply elem_of_seq; lia].
    apply list_elem_of_fmap. exists j. split; [done|]. apply elem_of_seq. lia.
Qed.

Lemma row_pairs_sorted i s k :
  StronglySorted index_lt (pair i <$> seq s k).
Proof.
  revert s. induction k as [|k IH]; intros s; [constructor|].
  cbn. constructor; [apply IH|].
  apply Forall_forall. intros [i' j'] Hin.
  apply list_elem_of_fmap in Hin as (j & [= -> ->] & Hj).
  apply elem_of_seq in Hj. right. simpl. lia.
Qed.

Lemma index_pairs_from_sorted n a k :
  StronglySorted index_lt
    (seq a k ≫= λ i, pair i <$> seq (i + 1) (n - (i + 1))).
Proof.
  revert a. induction k as [|k IH]; intros a; [constructor|].
  cbn [seq]. rewrite bind_cons. apply StronglySorted_app_2; [|apply row_pairs_sorted|apply IH].
  intros [i1 j1] [i2 j2] H1 H2.
  apply list_elem_of_fmap in H1 as (? & [= -> ->] & _).
  apply list_elem_of_bind in H2 as (i' & Hin & Hi').
  apply list_elem_of_fmap in Hin as (? & [= -> ->] & _).
  apply elem_of_seq in Hi'. left. simpl. lia.
Qed.

Lemma index_pairs_sorted n : StronglySorted index_lt (index_pairs n).
Proof. apply index_pairs_from_sorted. Qed.

Lemma index_pairs_from_length n a k :
  (a + k = n)%nat →
  (2 * length (seq a k ≫= λ i, pair i <$> seq (i + 1) (n - (i + 1))) = k * (k - 1))%nat.
Proof.
  revert a. induction k as [|k IH]; intros a Hn; [done|].
  cbn [seq]. rewrite bind_cons, length_app, length_fmap, length_seq.
  specialize (IH (S a) ltac:(lia)). nia.
Qed.

Lemma index_pairs_length n :
  length (index_pairs n) = (n * (n - 1) / 2)%nat.
Proof.
  pose proof (index_pairs_from_length n 0 n eq_refl) as H.
  unfold index_pairs. apply Nat.div_unique_exact; lia.
Qed.

Lemma omap_all_None {A B} (f : A → option B) l :
  (∀ x, x ∈ l → f x = None) → omap f l = [].
Proof.
  induction l as [|x l IH]; intros H; [done|].
  cbn. rewrite (H x) by left. apply IH. intros y Hy. apply H. by right.
Qed.

Lemma omap_all_Some_length {A B} (f : A → option B) l :
  (∀ x, x ∈ l → is_Some (f x)) → length (omap f l) = length l.
Proof.
  induction l as [|x l IH]; intros H; [done|].
  cbn. destruct (H x) as [y ->]; [left|]. cbn. f_equal. apply IH.
  intros z Hz. apply H. by right.
Qed.

Lemma pair_at_in_range evs i j :
  (i < j < length evs)%nat →
  ∃ a b, evs !! i = Some a ∧ evs !! j = Some b ∧ pair_at evs (i, j) = Some (a, b).
Proof.
  intros Hij.
  destruct (lookup_lt_is_Some_2 evs i) as [a Ha]; [lia|].
  destruct (lookup_lt_is_Some_2 evs j) as [b Hb]; [lia|].
  exists a, b. unfold pair_at. simpl. by rewrite Ha, Hb.
Qed.

Lemma elem_of_scan_conflicts evs a b :
  (a, b) ∈ scan_conflicts evs ↔
  ∃ i j, (i < j)%nat ∧ evs !! i = Some a ∧ evs !! j = Some b ∧
         ev_start a < ev_end b ∧ ev_start b < ev_end a.
Proof.
  rewrite scan_conflicts_omap, list_elem_of_omap. split.
  - intros ([i j] & Hin & Hab). apply elem_of_index_pairs in Hin.
    destruct (pair_at_in_range evs i j Hin) as (a' & b' & Ha & Hb & Hpair).
    unfold conflict_at, conflicting in Hab. rewrite Hpair in Hab. simpl in Hab.
    destruct (overlaps _ _ _ _) eqn:Hov; [|done]. injection Hab as <- <-.
    apply overlaps_spec in Hov. exists i, j. split_and!; (done || lia).
  - intros (i & j & Hij & Ha & Hb & H1 & H2).
    exists (i, j). split.
    + apply elem_of_index_pairs. apply lookup_lt_Some in Hb. lia.
    + unfold conflict_at, pair_at, conflicting. simpl. rewrite Ha, Hb. simpl.
      assert (overlaps (ev_start a) (ev_end a) (ev_start b) (ev_end b) = true) as ->; [|done].
      by apply overlaps_spec.
Qed.

(** C6.  The test of the scan is the half-open one: a pair is reported
    exactly when it sits at positions [i < j] and [s1 < e2] and [s2 < e1];
    two events of which one ends when the other starts are reported in
    neither order. *)
Theorem check_conflicts_half_open :
  (∀ s1 e1 s2 e2, overlaps s1 e1 s2 e2 = true ↔ s1 < e2 ∧ s2 < e1) ∧
  (∀ evs a b,
     (a, b) ∈ scan_conflicts evs ↔
     ∃ i j, (i < j)%nat ∧ evs !! i = Some a ∧ evs !! j = Some b ∧
            ev_start a < ev_end b ∧ ev_start b < ev_end a) ∧
  (∀ evs a b, ev_end a = ev_start b →
     ((a, b) ∉ scan_conflicts evs) ∧ ((b, a) ∉ scan_conflicts evs)).
Proof.
  split_and!.
  - apply overlaps_spec.
  - apply elem_of_scan_conflicts.
  - intros evs a b Hadj. split; intros Hin;
      apply elem_of_scan_conflicts in Hin as (i & j & _ & _ & _ & H1 & H2); lia.
Qed.

Lemma scan_conflicts_disjoint evs :
  pairwise_disjoint evs → scan_conflicts evs = [].
Proof.
  intros Hdis. rewrite scan_conflicts_omap.
  apply omap_all_None. intros [i j] Hin.
  apply elem_of_index_pairs in Hin.
  destruct (pair_at_in_range evs i j Hin) as (a & b & Ha & Hb & Hab).
  unfold conflict_at. rewrite Hab. simpl.
  rewrite (proj2 (conflicting_false a b)); [done|].
  apply (Hdis i j); [lia|done|done].
Qed.

Lemma scan_conflicts_mutual evs :
  mutually_overlapping evs →
  scan_conflicts evs = omap (pair_at evs) (index_pairs (length evs)).
Proof.
  intros Hall. rewrite scan_conflicts_omap.
  apply list_omap_ext, Forall2_same_length_lookup_2; [done|].
  intros k [i j] q Hp Hq. rewrite Hp in Hq. injection Hq as <-.
  apply list_elem_of_lookup_2, elem_of_index_pairs in Hp.
  destruct (pair_at_in_range evs i j Hp) as (a & b & Ha & Hb & Hab).
  unfold conflict_at. rewrite Hab. simpl.
  rewrite (proj2 (conflicting_spec a b)); [done|].
  apply (Hall i j); [lia|done|done].
Qed.

(** C7.  On pairwise-disjoint events the scan returns nothing; on mutually
    overlapping events it returns the [n*(n-1)/2] pairs at the positions
    [index_pairs n], which are all the [(i, j)] with [i < j < n] in
    increasing lexicographic order; zero or one event gives nothing. *)
Theorem scan_conflicts_counts (evs : list event) :
  (pairwise_disjoint evs → scan_conflicts evs = []) ∧
  (mutually_overlapping evs →
     scan_conflicts evs = omap (pair_at evs) (index_pairs (length evs)) ∧
     length (scan_conflicts evs) = (length evs * (length evs - 1) / 2)%nat) ∧
  ((length evs ≤ 1)%nat → scan_conflicts evs = []) ∧
  StronglySorted index_lt (index_pairs (length evs)) ∧
  (∀ i j, (i, j) ∈ index_pairs (length evs) ↔ (i < j < length evs)%nat).
Proof.
  split_and!.
  - apply scan_conflicts_disjoint.
  - intros Hall. split; [by apply scan_conflicts_mutual|].
    rewrite scan_conflicts_mutual, <- index_pairs_length by done.
    apply omap_all_Some_length. intros [i j] Hin. apply elem_of_index_pairs in Hin.
    destruct (pair_at_in_range evs i j Hin) as (a & b & _ & _ & ->). eauto.
  - intros Hn. rewrite scan_conflicts_omap. apply omap_all_None. intros [i j] Hin.
    apply elem_of_index_pairs in Hin. lia.
  - apply index_pairs_sorted.
  - intros i j. apply elem_of_index_pairs.
Qed.

(** ** datetime arithmetic *)

Ltac dt_unfold :=
  unfold on_5min_boundary, whole_minute, round_up_to_5min, minute_of, date_of,
    replace_minute0_second0_microsecond0, combine_min_time,
    total_seconds_floordiv_60, isoformat_minutes, fromisoformat,
    at_hm, at_hms, minutes, hours, days in *.

Ltac dt_consts :=
  repeat match goal with
  | |- context [Z.pos ?a * Z.pos ?b] =>
      let v := eval vm_compute in (Z.pos a * Z.pos b) in
      change (Z.pos a * Z.pos b) with v
  | H : context [Z.pos ?a * Z.pos ?b] |- _ =>
      let v := eval vm_compute in (Z.pos a * Z.pos b) in
      change (Z.pos a * Z.pos b) with v in H
  end.

Ltac dt_lia := dt_unfold; dt_consts; Z.div_mod_to_equations; lia.

(** Symbolic evaluation of comparisons and [max] on instants. *)
Ltac dt_eval :=
  repeat match goal with
  | |- context [decide ?P] =>
      first [ rewrite (decide_True (P := P)) by dt_lia
            | rewrite (decide_False (P := P)) by dt_lia ]
  | |- context [Z.max ?a ?b] =>
      first [ rewrite (Z.max_l a b) by dt_lia
            | rewrite (Z.max_r a b) by dt_lia ]
  end.

Lemma date_of_days_add day t :
  0 ≤ t < days 1 → date_of (days day + t) = day.
Proof. intros H. dt_lia. Qed.

Lemma date_of_add_days dt k : date_of (dt + days k) = date_of dt + k.
Proof. dt_lia. Qed.

Lemma date_of_bounds dt : days (date_of dt) ≤ dt < days (date_of dt) + days 1.
Proof. dt_lia. Qed.

Lemma on_5min_boundary_iff dt : on_5min_boundary dt ↔ dt mod minutes 5 = 0.
Proof.
  split; [intros [H1 H2]; dt_lia|].
  intros H. assert (whole_minute dt) as Hm by dt_lia.
  assert ((dt / minutes 1) mod 5 = 0) by dt_lia.
  split; [dt_lia|done].
Qed.

Lemma round_up_to_5min_boundary dt : on_5min_boundary (round_up_to_5min dt).
Proof. apply on_5min_boundary_iff. dt_lia. Qed.

Lemma round_up_to_5min_fixed dt : on_5min_boundary dt → round_up_to_5min dt = dt.
Proof. intros [H1 H2]. dt_lia. Qed.

Lemma round_up_to_5min_whole_minute dt :
  whole_minute dt →
  dt ≤ round_up_to_5min dt ∧
  ∀ dt', dt ≤ dt' → on_5min_boundary dt' → round_up_to_5min dt ≤ dt'.
Proof.
  intros H. split; [dt_lia|].
  intros dt' Hle [H1 H2]. dt_lia.
Qed.

Lemma round_up_to_5min_range dt :
  dt - minutes 1 < round_up_to_5min dt < dt + minutes 5.
Proof. dt_lia. Qed.

Lemma isoformat_minutes_add dt m :
  isoformat_minutes (dt + minutes m) = isoformat_minutes dt + minutes m.
Proof. dt_lia. Qed.

Lemma isoformat_minutes_whole dt : whole_minute dt → isoformat_minutes dt = dt.
Proof. intros H. dt_lia. Qed.

Lemma floordiv_60_whole td :
  whole_minute td → minutes (total_seconds_floordiv_60 td) = td.
Proof. intros H. dt_lia. Qed.

(** C4 (the code at 10:05:30).  The minute is already a multiple of 5, so
    nothing is added and the seconds are dropped: the result is 10:05:00,
    which is earlier than the input, while the next boundary at or after
    the input is 10:10:00. *)
Theorem round_up_to_5min_drops_seconds (day : date) :
  round_up_to_5min (at_hms day 10 5 30) = at_hm day 10 5 ∧
  at_hm day 10 5 < at_hms day 10 5 30 ∧
  on_5min_boundary (at_hm day 10 10) ∧
  at_hms day 10 5 30 ≤ at_hm day 10 10 < at_hms day 10 5 30 + minutes 5.
Proof.
  split_and!; dt_lia.
Qed.

(** ** Free-slot search *)

Global Instance tuple_le_total : Total tuple_le.
Proof. intros [a1 a2] [b1 b2]. unfold tuple_le. simpl. lia. Qed.

Global Instance tuple_le_trans : Transitive tuple_le.
Proof. intros [a1 a2] [b1 b2] [c1 c2]. unfold tuple_le. simpl. lia. Qed.

Global Instance tuple_le_antisymm : AntiSymm (=) tuple_le.
Proof.
  intros [a1 a2] [b1 b2]. unfold tuple_le. simpl. intros H1 H2.
  f_equal; lia.
Qed.

Lemma busy_on_sorted all_events day :
  StronglySorted tuple_le (busy_on all_events day).
Proof. apply StronglySorted_merge_sort; apply _. Qed.

Lemma elem_of_busy_on all_events day w :
  w ∈ busy_on all_events day ↔
  ∃ ev, ev ∈ all_events ∧ date_of (ev_start ev) = day ∧ w = (ev_start ev, ev_end ev).
Proof.
  unfold busy_on. rewrite merge_sort_Permutation, list_elem_of_omap.
  split.
  - intros (ev & Hin & Hev). exists ev. case_decide; naive_solver.
  - intros (ev & Hin & Hday & ->). exists ev. split; [done|].
    by rewrite decide_True.
Qed.

(** A [return] inside the loop over the sorted busy windows: every window
    ends at or before the slot, or starts at or after the slot's end. *)
Lemma scan_busy_inl duration cursor busy slot :
  StronglySorted tuple_le busy →
  scan_busy duration cursor busy = inl slot →
  cursor ≤ slot ∧
  (∃ w, w ∈ busy ∧ slot + duration ≤ w.1) ∧
  Forall (λ w, w.2 ≤ slot ∨ slot + duration ≤ w.1) busy.
Proof.
  intros Hsorted. revert cursor.
  induction Hsorted as [|[b_start b_end] rest Hrest IH Hhd]; intros cursor; [done|].
  cbn [scan_busy]. case_decide as Hfit.
  - intros [= <-]. split; [lia|]. split.
    + exists (b_start, b_end). split; [left|done].
    + constructor; [by right|].
      eapply Forall_impl; [exact Hhd|]. intros [s e] Hle. right.
      unfold tuple_le in Hle. simpl in *. lia.
  - intros Hscan. destruct (IH _ Hscan) as (Hle & (w & Hw & Hfree) & Hall).
    split; [lia|]. split.
    + exists w. split; [by right|done].
    + constructor; [left; simpl; lia|done].
Qed.

(** Falling through the loop: every window ends at or before the cursor. *)
Lemma scan_busy_inr duration cursor busy cursor' :
  scan_busy duration cursor busy = inr cursor' →
  cursor ≤ cursor' ∧ Forall (λ w, w.2 ≤ cursor') busy.
Proof.
  revert cursor. induction busy as [|[b_start b_end] rest IH]; intros cursor.
  - intros [= <-]. split; [lia|constructor].
  - cbn [scan_busy]. case_decide; [done|]. intros Hscan.
    destruct (IH _ Hscan) as [Hle Hall]. split; [lia|].
    constructor; [simpl; lia|done].
Qed.

(** What one day of the search guarantees about a slot it returns. *)
Lemma try_day_Some all_events duration probe day_offset slot :
  try_day all_events duration probe day_offset = Some slot →
  let day := date_of (probe + days day_offset) in
  (if decide (day_offset = 0) then Z.max probe (days day + hours 8)
   else days day + hours 8) ≤ slot ∧
  (slot + duration ≤ days day + hours 21 ∨
   ∃ ev, ev ∈ all_events ∧ date_of (ev_start ev) = day ∧
         slot + duration ≤ ev_start ev) ∧
  ∀ ev, ev ∈ all_events → date_of (ev_start ev) = day →
        ev_end ev ≤ slot ∨ slot + duration ≤ ev_start ev.
Proof.
  unfold try_day, combine_min_time. intros Htry. cbv zeta in *.
  set (day := date_of (probe + days day_offset)) in *.
  pose proof (busy_on_sorted all_events day) as Hsorted.
  pose proof (elem_of_busy_on all_events day) as Hbusy.
  set (cursor := if decide (day_offset = 0) then _ else _) in *.
  destruct (busy_on all_events day) as [|w busy] eqn:Hb.
  - case_decide; [|done]. injection Htry as <-.
    split; [done|]. split; [by left|].
    intros ev Hin Hday. exfalso.
    eapply not_elem_of_nil, Hbusy. eauto.
  - destruct (scan_busy duration cursor (w :: busy)) as [s|c] eqn:Hscan.
    + injection Htry as <-.
      destruct (scan_busy_inl _ _ _ _ Hsorted Hscan) as (Hle & (w' & Hw' & Hfit) & Hall).
      split; [done|]. split.
      * right. apply Hbusy in Hw' as (ev & Hin & Hday & ->). eauto.
      * intros ev Hin Hday.
        rewrite Forall_forall in Hall.
        apply (Hall (ev_start ev, ev_end ev)), Hbusy. eauto.
    + case_decide; [|done]. injection Htry as <-.
      destruct (scan_busy_inr _ _ _ _ Hscan) as [Hle Hall].
      split; [done|]. split; [by left|].
      intros ev Hin Hday. left.
      rewrite Forall_forall in Hall.
      apply (Hall (ev_start ev, ev_end ev)), Hbusy. eauto.
Qed.

Lemma first_day_Some all_events duration probe day_offsets slot :
  first_day all_events duration probe day_offsets = Some slot →
  ∃ day_offset, day_offset ∈ day_offsets ∧
    try_day all_events duration probe day_offset = Some slot.
Proof.
  induction day_offsets as [|k rest IH]; [done|].
  cbn [first_day]. destruct (try_day _ _ _ k) as [s|] eqn:Hk.
  - intros [= <-]. exists k. split; [left|done].
  - intros H. destruct (IH H) as (k' & Hin & Hk'). exists k'. split; [by right|done].
Qed.

(** What [find_free_slot] does guarantee for a non-negative duration: the
    slot is not before the rounded lower bound, not before 08:00 of its day,
    and its window meets no event that starts on the slot's day. *)
Lemma find_free_slot_Some now all_events duration_minutes after_time search_days slot :
  0 ≤ duration_minutes →
  find_free_slot now all_events duration_minutes after_time search_days = Some slot →
  round_up_to_5min (default now after_time) ≤ slot ∧
  days (date_of slot) + hours 8 ≤ slot ∧
  ∀ ev, ev ∈ all_events → date_of (ev_start ev) = date_of slot →
    overlaps slot (slot + minutes duration_minutes) (ev_start ev) (ev_end ev) = false.
Proof.
  unfold find_free_slot. intros Hdur Hfind.
  replace (match after_time with Some t => t | None => now end)
    with (default now after_time) in Hfind by (by destruct after_time).
  set (probe := round_up_to_5min _) in *.
  apply first_day_Some in Hfind as (k & Hk & Htry).
  apply elem_of_seqZ in Hk.
  apply try_day_Some in Htry as (Hcur & Hend & Hfree).
  rewrite date_of_add_days in Hcur, Hend, Hfree.
  assert (date_of slot = date_of probe + k) as Hday.
  { assert (days (date_of probe + k) + hours 8 ≤ slot) as Hlo
      by (case_decide; lia).
    assert (slot < days (date_of probe + k) + days 1) as Hhi.
    { destruct Hend as [Hend|(ev & _ & Hev & Hend)].
      - unfold minutes, hours, days in *. lia.
      - pose proof (date_of_bounds (ev_start ev)) as Hb. rewrite Hev in Hb.
        unfold minutes in *. lia. }
    clear -Hlo Hhi. dt_lia. }
  rewrite Hday. split_and!.
  - case_decide; [lia|].
    pose proof (date_of_bounds probe). unfold days, hours in *. lia.
  - case_decide; lia.
  - intros ev Hin Hev. apply overlaps_false. by apply Hfree.
Qed.

(** For a lower bound on a whole minute and a non-negative duration, a
    returned slot is not before the lower bound. *)
Lemma find_free_slot_whole_minute_bound now all_events duration_minutes after_time
    search_days slot :
  0 ≤ duration_minutes →
  whole_minute after_time →
  find_free_slot now all_events duration_minutes (Some after_time) search_days
    = Some slot →
  after_time ≤ slot.
Proof.
  intros Hdur Hwhole Hfind.
  apply find_free_slot_Some in Hfind as (Hprobe & _); [|done].
  apply round_up_to_5min_whole_minute in Hwhole as [Hle _].
  simpl in Hprobe. lia.
Qed.

(** C3 (the code at a late event).  With one event 22:00-23:00 and a
    60-minute search from 20:30, the [return] inside the loop over the busy
    windows hands back 20:30, whose window ends at 21:30, after 21:00. *)
Theorem find_free_slot_past_day_end (now : datetime) (day : date) :
  let late := Event 1 "late" (at_hm day 22 0) (at_hm day 23 0) "" in
  find_free_slot now [late] 60 (Some (at_hm day 20 30)) 7 = Some (at_hm day 20 30) ∧
  date_of (at_hm day 20 30) = day ∧
  combine_min_time day + hours 21 < at_hm day 20 30 + minutes 60.
Proof.
  cbv zeta. split_and!; try dt_lia.
  unfold find_free_slot.
  rewrite round_up_to_5min_fixed by (apply on_5min_boundary_iff; dt_lia).
  change (range 7) with [0; 1; 2; 3; 4; 5; 6]. cbn [first_day].
  unfold try_day.
  replace (date_of (at_hm day 20 30 + days 0)) with day by dt_lia.
  unfold busy_on. cbn [omap list_omap ev_start ev_end].
  rewrite decide_True by dt_lia. cbn.
  dt_eval. done.
Qed.

(** C5 (the code at 10:05:30).  With no events and lower bound 10:05:30 the
    search starts from the rounded instant 10:05:00 and returns it: the slot
    starts before the lower bound. *)
Theorem find_free_slot_before_lower_bound (now : datetime) (day : date) :
  find_free_slot now [] 30 (Some (at_hms day 10 5 30)) 7 = Some (at_hm day 10 5) ∧
  at_hm day 10 5 < at_hms day 10 5 30.
Proof.
  split; [|dt_lia].
  unfold find_free_slot.
  replace (round_up_to_5min (at_hms day 10 5 30)) with (at_hm day 10 5) by dt_lia.
  change (range 7) with [0; 1; 2; 3; 4; 5; 6]. cbn [first_day].
  unfold try_day.
  replace (date_of (at_hm day 10 5 + days 0)) with day by dt_lia.
  cbn. dt_eval. done.
Qed.

(** ** The listing of the table *)

Global Instance by_start_iso_total : Total by_start_iso.
Proof. intros r1 r2. unfold by_start_iso. lia. Qed.

Global Instance by_start_iso_trans : Transitive by_start_iso.
Proof. intros r1 r2 r3. unfold by_start_iso. lia. Qed.

Lemma elem_of_list_events_db db r :
  r ∈ list_events_db db ↔
  ∃ id rw, db !! id = Some rw ∧ r = row_dict (id, rw).
Proof.
  unfold list_events_db. rewrite list_elem_of_fmap. split.
  - intros ([id rw] & -> & Hin).
    rewrite merge_sort_Permutation in Hin.
    apply elem_of_map_to_list in Hin. eauto.
  - intros (id & rw & Hdb & ->). exists (id, rw). split; [done|].
    rewrite merge_sort_Permutation. by apply elem_of_map_to_list.
Qed.

(** Two rows with distinct start times are listed earlier start first,
    whichever their ids. *)
Lemma list_events_db_two idx idy rx ry :
  idx ≠ idy →
  row_start_iso rx < row_start_iso ry →
  list_events_db (<[idy := ry]> {[idx := rx]}) =
    [row_dict (idx, rx); row_dict (idy, ry)].
Proof.
  intros Hid Hlt. unfold list_events_db.
  assert (merge_sort by_start_iso (map_to_list (<[idy := ry]> ({[idx := rx]} : gmap Z row)))
          = [(idx, rx); (idy, ry)]) as ->; [|done].
  symmetry. apply (StronglySorted_unique_strong by_start_iso).
  - intros x1 [i2 r2] H1 H2. rewrite merge_sort_Permutation in H2.
    apply elem_of_map_to_list in H2.
    apply lookup_insert_Some in H2.
    rewrite lookup_singleton_Some in H2.
    unfold by_start_iso.
    apply list_elem_of_In in H1. simpl in H1.
    destruct H1 as [<-|[<-|[]]]; simpl; intros;
      destruct H2 as [[<- <-]|[_ [<- <-]]]; try done; lia.
  - apply SSorted_cons; [repeat constructor|].
    repeat constructor. unfold by_start_iso. simpl. lia.
  - apply StronglySorted_merge_sort; apply _.
  - rewrite merge_sort_Permutation, map_to_list_insert
      by (by apply lookup_singleton_ne).
    rewrite map_to_list_singleton. apply Permutation_swap.
Qed.

(** ** Scenario A *)

Section ScenarioA.

Variables (now : datetime) (day : date) (idx idy : Z) (tx ty px py : string).

Let X := Event idx tx (at_hm day 9 0) (at_hm day 10 0) px.
Let Y := Event idy ty (at_hm day 9 30) (at_hm day 10 30) py.

Lemma busy_on_scenario_A :
  busy_on [X; Y] day =
    [(at_hm day 9 0, at_hm day 10 0); (at_hm day 9 30, at_hm day 10 30)].
Proof.
  symmetry. apply (StronglySorted_unique tuple_le).
  - apply SSorted_cons; [repeat constructor|].
    repeat constructor. simpl. dt_lia.
  - apply busy_on_sorted.
  - unfold busy_on. rewrite merge_sort_Permutation. cbn.
    rewrite !decide_True by dt_lia. done.
Qed.

Lemma find_free_slot_scenario_A :
  find_free_slot now [X; Y] 60 (Some (at_hm day 10 0)) 7 = Some (at_hm day 10 30).
Proof.
  unfold find_free_slot.
  rewrite round_up_to_5min_fixed by (apply on_5min_boundary_iff; dt_lia).
  change (range 7) with [0; 1; 2; 3; 4; 5; 6]. cbn [first_day].
  unfold try_day.
  replace (date_of (at_hm day 10 0 + days 0)) with day by dt_lia.
  rewrite busy_on_scenario_A. cbn [scan_busy].
  dt_eval. done.
Qed.

Lemma scan_conflicts_scenario_A : scan_conflicts [X; Y] = [(X, Y)].
Proof.
  cbn. assert (overlaps (at_hm day 9 0) (at_hm day 10 0) (at_hm day 9 30) (at_hm day 10 30) = true) as ->; [|done].
  apply overlaps_spec. dt_lia.
Qed.

Lemma suggest_scenario_A :
  suggest now [X; Y] (X, Y) =
    SuggestionDict (MoveEvent idy ty (at_hm day 9 30) (at_hm day 10 30) py)
      (at_hm day 10 30) (at_hm day 11 30) ("Resolve overlap with '" +:+ tx +:+ "'").
Proof.
  unfold suggest. rewrite bool_decide_eq_true_2 by (simpl; dt_lia).
  replace (total_seconds_floordiv_60 (ev_end Y - ev_start Y)) with 60 by (simpl; dt_lia).
  change (ev_end X) with (at_hm day 10 0).
  rewrite find_free_slot_scenario_A. simpl.
  f_equal; [f_equal|..]; dt_lia.
Qed.

End ScenarioA.

(** C1 (as the code has it).  With exactly X = [09:00, 10:00) and
    Y = [09:30, 10:30) stored, whatever their ids, there is exactly one
    suggestion; it moves Y, and since Y's own window is among the busy
    windows of the search the slot is Y's end: 10:30 to 11:30. *)
Theorem scenario_A_suggestion now day idx idy tx ty px py :
  idx ≠ idy →
  rule_based_suggestions now
    (<[idy := Row ty (at_hm day 9 30) (at_hm day 10 30) py]>
       {[idx := Row tx (at_hm day 9 0) (at_hm day 10 0) px]}) =
  [SuggestionDict (MoveEvent idy ty (at_hm day 9 30) (at_hm day 10 30) py)
     (at_hm day 10 30) (at_hm day 11 30)
     ("Resolve overlap with '" +:+ tx +:+ "'")].
Proof.
  intros Hid. unfold rule_based_suggestions, check_conflicts.
  rewrite list_events_db_two by (done || (simpl; dt_lia)).
  cbn [fmap list_fmap parse_events row_dict fst snd row_title row_start_iso
       row_end_iso row_place raw_id raw_title raw_start raw_end raw_place].
  unfold fromisoformat.
  rewrite scan_conflicts_scenario_A. cbn [fmap list_fmap].
  by rewrite suggest_scenario_A.
Qed.

(** ** Suggestions *)

Lemma elem_of_parse_events db ev :
  ev ∈ parse_events (list_events_db db) ↔
  ∃ id r, db !! id = Some r ∧ ev = event_of_row id r.
Proof.
  unfold parse_events. rewrite list_elem_of_fmap. split.
  - intros (raw & -> & Hraw).
    apply elem_of_list_events_db in Hraw as (id & r & Hdb & ->). eauto.
  - intros (id & r & Hdb & ->). exists (row_dict (id, r)). split; [done|].
    apply elem_of_list_events_db. eauto.
Qed.

(** The mover of a suggestion and the window proposed for it, over any
    pair: on the slot branch the proposed length is the mover's duration
    floored to whole minutes. *)
Lemma suggest_mover now all_events a b :
  let s := suggest now all_events (a, b) in
  ∃ to_move keep,
    ((to_move = b ∧ keep = a) ∨ (to_move = a ∧ keep = b)) ∧
    sd_move_event s =
      MoveEvent (ev_id to_move) (ev_title to_move)
        (isoformat_minutes (ev_start to_move)) (isoformat_minutes (ev_end to_move))
        (ev_place to_move) ∧
    ((sd_new_end_iso s - sd_new_start_iso s =
        minutes (total_seconds_floordiv_60 (ev_end to_move - ev_start to_move)) ∧
      sd_reason s = "Resolve overlap with '" +:+ ev_title keep +:+ "'") ∨
     (sd_new_start_iso s = isoformat_minutes (ev_end keep) ∧
      sd_new_end_iso s =
        isoformat_minutes (ev_end keep + (ev_end to_move - ev_start to_move)) ∧
      sd_reason s = reason_no_slot)).
Proof.
  unfold suggest. cbv zeta.
  set (to_move := if bool_decide (ev_start b >= ev_start a) then b else a).
  set (keep := if bool_decide (ev_start b >= ev_start a) then a else b).
  exists to_move, keep. split.
  { unfold to_move, keep. case_bool_decide; auto. }
  destruct (find_free_slot _ _ _ _ _) as [slot|]; simpl.
  - split; [done|]. left. split; [|done].
    rewrite isoformat_minutes_add. lia.
  - split; [done|]. by right.
Qed.

Lemma whole_minute_sub a b : whole_minute a → whole_minute b → whole_minute (a - b).
Proof. intros Ha Hb. dt_lia. Qed.

Lemma whole_minute_add a b : whole_minute a → whole_minute b → whole_minute (a + b).
Proof. intros Ha Hb. dt_lia. Qed.

(** C2 (as the code has it).  When every stored timestamp is on a whole
    minute, each suggestion names a stored event as the mover, repeats its
    stored window, and proposes a window of exactly the same length, on the
    slot branch and on the fallback branch alike. *)
Theorem suggestion_preserves_duration now (db : gmap Z row) :
  whole_minute_table db →
  ∀ s, s ∈ rule_based_suggestions now db →
  ∃ r, db !! me_id (sd_move_event s) = Some r ∧
       me_start_iso (sd_move_event s) = row_start_iso r ∧
       me_end_iso (sd_move_event s) = row_end_iso r ∧
       sd_new_end_iso s - sd_new_start_iso s = row_end_iso r - row_start_iso r.
Proof.
  intros Hwhole s Hs. unfold rule_based_suggestions, check_conflicts in Hs.
  apply list_elem_of_fmap in Hs as ([a b] & -> & Hab).
  apply elem_of_scan_conflicts in Hab as (i & j & _ & Ha & Hb & _).
  apply list_elem_of_lookup_2, elem_of_parse_events in Ha as (ia & ra & Hra & ->).
  apply list_elem_of_lookup_2, elem_of_parse_events in Hb as (ib & rb & Hrb & ->).
  destruct (Hwhole _ _ Hra) as [Has Hae], (Hwhole _ _ Hrb) as [Hbs Hbe].
  pose proof (suggest_mover now (parse_events (list_events_db db))
                (event_of_row ia ra) (event_of_row ib rb)) as Hmover.
  cbv zeta in Hmover. set (s := suggest _ _ _) in *. clearbody s.
  destruct Hmover as (to_move & keep & Hwho & -> & Hnew).
  assert (∃ im rm ik rk, db !! im = Some rm ∧ to_move = event_of_row im rm ∧
            keep = event_of_row ik rk ∧
            whole_minute (row_start_iso rm) ∧ whole_minute (row_end_iso rm) ∧
            whole_minute (row_end_iso rk))
    as (im & rm & ik & rk & Hrm & -> & -> & Hms & Hme & Hke).
  { destruct Hwho as [[-> ->]|[-> ->]]; [exists ib, rb, ia, ra|exists ia, ra, ib, rb];
      split_and!; done. }
  exists rm. simpl. split; [done|].
  rewrite !isoformat_minutes_whole by done. split; [done|]. split; [done|].
  destruct Hnew as [[-> _]|(-> & -> & _)]; simpl.
  - apply floordiv_60_whole. by apply whole_minute_sub.
  - rewrite !isoformat_minutes_whole; [lia|done|].
    apply whole_minute_add; [done|]. by apply whole_minute_sub.
Qed.

(** ** Apply *)

Lemma update_event_time_db_lookup event_id ns ne (db : gmap Z row) id :
  update_event_time_db event_id ns ne db !! id =
    if decide (event_id = id)
    then (λ r, Row (row_title r) ns ne (row_place r)) <$> db !! id
    else db !! id.
Proof.
  unfold update_event_time_db. rewrite lookup_alter.
  case_decide; by subst.
Qed.

Lemma update_event_time_db_unknown event_id ns ne (db : gmap Z row) :
  db !! event_id = None → update_event_time_db event_id ns ne db = db.
Proof.
  intros Hnone. apply map_eq. intros id.
  rewrite update_event_time_db_lookup. case_decide; [|done].
  subst. by rewrite Hnone.
Qed.

(** C8 (as the code has it).  Applying a suggestion whose event id is not
    in the table changes no row and still returns the "ok" body with that
    id; no error is raised. *)
Theorem api_apply_suggestion_unknown_id (s : Suggestion) (db : gmap Z row) :
  db !! eo_id (move_event s) = None →
  api_apply_suggestion s db = (db, Returns (ApplyBody "ok" (eo_id (move_event s)))).
Proof.
  intros Hnone. unfold api_apply_suggestion.
  by rewrite update_event_time_db_unknown.
Qed.

(** C10.  Applying a suggestion whose event id is in the table replaces the
    start and end of that row, keeps its title and place under the same id,
    leaves every other id's row as it was, and adds or removes no id. *)
Theorem api_apply_suggestion_frame (s : Suggestion) (db : gmap Z row) (r : row) :
  db !! eo_id (move_event s) = Some r →
  let db' := (api_apply_suggestion s db).1 in
  db' !! eo_id (move_event s) =
    Some (Row (row_title r) (new_start_iso s) (new_end_iso s) (row_place r)) ∧
  (∀ id, id ≠ eo_id (move_event s) → db' !! id = db !! id) ∧
  dom db' = dom db.
Proof.
  intros Hr. cbv zeta. unfold api_apply_suggestion. cbn [fst]. split_and!.
  - rewrite update_event_time_db_lookup, decide_True by done. by rewrite Hr.
  - intros id Hid. rewrite update_event_time_db_lookup, decide_False by done. done.
  - unfold update_event_time_db. apply dom_alter_L.
Qed.

(** ** Explanations *)

(** C9 (as the code has it).  [/suggestions] always returns, with one entry
    per rule-based suggestion, in order, carrying the same proposal; the
    explanation is unset when the narrator is switched off, and when the
    narrator call raises [e] it is the text "(LLM failed: e)". *)
Theorem api_suggestions_narrator
    (USE_LLM : bool) (llm_invoke : string → iso → iso → iso → iso → llm_outcome)
    (now : datetime) (db : gmap Z row) :
  ∃ results,
    api_suggestions USE_LLM llm_invoke now db = Returns results ∧
    length results = length (rule_based_suggestions now db) ∧
    ∀ i s, rule_based_suggestions now db !! i = Some s →
      ∃ r, results !! i = Some r ∧ same_proposal s r ∧
        (USE_LLM = false → llm_explanation r = None) ∧
        (∀ e, USE_LLM = true →
           llm_invoke (me_title (sd_move_event s)) (me_start_iso (sd_move_event s))
             (me_end_iso (sd_move_event s)) (sd_new_start_iso s) (sd_new_end_iso s)
             = Raised e →
           llm_explanation r = Some ("(LLM failed: " +:+ e +:+ ")")).
Proof.
  unfold api_suggestions. eexists. split; [done|]. split; [by rewrite length_fmap|].
  intros i s Hs. rewrite list_lookup_fmap, Hs. simpl. eexists. split; [done|].
  split; [by repeat split|]. unfold llm_explain_suggestion. split.
  - by intros ->.
  - intros e -> ->. done.
Qed.

(** ** The properties at concrete inputs *)

Lemma scenario_A_suggestion_witness :
  (1 : Z) ≠ 2 ∧
  rule_based_suggestions 0 scenario_A_db =
    [SuggestionDict (MoveEvent 2 "Y" (at_hm 738000 9 30) (at_hm 738000 10 30) "")
       (at_hm 738000 10 30) (at_hm 738000 11 30) "Resolve overlap with 'X'"].
Proof.
  split; [lia|].
  apply (scenario_A_suggestion 0 738000 1 2 "X" "Y" "" ""). lia.
Defined.

(** Scenario A with the figures of the design document: no suggestion list
    consisting of one move of Y to 10:00-11:00 comes out. *)
Lemma scenario_A_not_at_anchor_end :
  ¬ ∃ s, rule_based_suggestions 0 scenario_A_db = [s] ∧
         me_id (sd_move_event s) = 2 ∧
         sd_new_start_iso s = at_hm 738000 10 0 ∧
         sd_new_end_iso s = at_hm 738000 11 0.
Proof.
  intros (s & Hs & _ & Hstart & _).
  vm_compute in Hs. injection Hs as <-.
  vm_compute in Hstart. discriminate.
Qed.

Lemma scenario_A_db_whole_minute : whole_minute_table scenario_A_db.
Proof.
  intros id r Hr. unfold scenario_A_db in Hr.
  apply lookup_insert_Some in Hr as [[_ <-]|[_ Hr]].
  - split; reflexivity.
  - apply lookup_singleton_Some in Hr as [_ <-]. split; reflexivity.
Defined.

Lemma suggestion_preserves_duration_witness :
  whole_minute_table scenario_A_db ∧
  ∀ s, s ∈ rule_based_suggestions 0 scenario_A_db →
    ∃ r, scenario_A_db !! me_id (sd_move_event s) = Some r ∧
         me_start_iso (sd_move_event s) = row_start_iso r ∧
         me_end_iso (sd_move_event s) = row_end_iso r ∧
         sd_new_end_iso s - sd_new_start_iso s = row_end_iso r - row_start_iso r.
Proof.
  split; [exact scenario_A_db_whole_minute|].
  apply (suggestion_preserves_duration 0 scenario_A_db).
  exact scenario_A_db_whole_minute.
Defined.

(** With Y = [09:30:30, 10:30:00) the one suggestion proposes 59 minutes,
    which is neither the stored 59.5 minutes nor the 60 minutes between the
    printed start and end of the mover. *)
Lemma seconds_change_duration :
  ∃ s r, s ∈ rule_based_suggestions 0 seconds_db ∧
    seconds_db !! me_id (sd_move_event s) = Some r ∧
    sd_new_end_iso s - sd_new_start_iso s = minutes 59 ∧
    row_end_iso r - row_start_iso r = minutes 59 + 30 * 1000000 ∧
    me_end_iso (sd_move_event s) - me_start_iso (sd_move_event s) = minutes 60 ∧
    sd_new_end_iso s - sd_new_start_iso s ≠ row_end_iso r - row_start_iso r.
Proof.
  eexists _, _. split_and!.
  - assert (rule_based_suggestions 0 seconds_db = [_]) as -> by (vm_compute; reflexivity).
    by left.
  - vm_compute. reflexivity.
  - vm_compute. reflexivity.
  - vm_compute. reflexivity.
  - vm_compute. reflexivity.
  - vm_compute. discriminate.
Qed.

Lemma check_conflicts_half_open_witness :
  ev_end morning_a = ev_start morning_b ∧
  ((morning_a, morning_b) ∉ scan_conflicts [morning_a; morning_b]) ∧
  ((morning_b, morning_a) ∉ scan_conflicts [morning_a; morning_b]).
Proof.
  split; [reflexivity|].
  apply (proj2 (proj2 check_conflicts_half_open)). reflexivity.
Defined.

Lemma scan_conflicts_counts_witness :
  (pairwise_disjoint [morning_a; morning_b] ∧
   scan_conflicts [morning_a; morning_b] = []) ∧
  (mutually_overlapping [overlap_p; overlap_q; overlap_r] ∧
   scan_conflicts [overlap_p; overlap_q; overlap_r] =
     [(overlap_p, overlap_q); (overlap_p, overlap_r); (overlap_q, overlap_r)] ∧
   length (scan_conflicts [overlap_p; overlap_q; overlap_r]) = 3%nat) ∧
  ((length [morning_a] ≤ 1)%nat ∧ scan_conflicts [morning_a] = []).
Proof.
  assert (pairwise_disjoint [morning_a; morning_b]) as Hdis.
  { intros [|[|i]] [|[|j]] a b Hij Ha Hb; simpl in *; simplify_eq; try lia.
    intros [_ Hlt]. vm_compute in Hlt. discriminate Hlt. }
  assert (mutually_overlapping [overlap_p; overlap_q; overlap_r]) as Hall.
  { intros [|[|[|i]]] [|[|[|j]]] a b Hij Ha Hb; simpl in *; simplify_eq;
      try lia; split; reflexivity. }
  split_and!.
  - exact Hdis.
  - exact (proj1 (scan_conflicts_counts _) Hdis).
  - exact Hall.
  - exact (proj1 (proj1 (proj2 (scan_conflicts_counts _)) Hall)).
  - exact (proj2 (proj1 (proj2 (scan_conflicts_counts _)) Hall)).
  - simpl. lia.
  - apply (proj1 (proj2 (proj2 (scan_conflicts_counts [morning_a])))). simpl. lia.
Defined.

(** The late-evening table through the suggestion builder: B is moved to
    21:00-22:00, outside working hours. *)
Example evening_db_suggestion :
  rule_based_suggestions 0 evening_db =
    [SuggestionDict (MoveEvent 2 "B" (at_hm 738000 20 0) (at_hm 738000 21 0) "")
       (at_hm 738000 21 0) (at_hm 738000 22 0) "Resolve overlap with 'A'"].
Proof. vm_compute. reflexivity. Qed.

(** Applying a suggestion for the unknown id 42: the answer is the "ok"
    body, not an error. *)
Lemma apply_unknown_id_reports_ok :
  scenario_A_db !! eo_id (move_event stray_suggestion) = None ∧
  (api_apply_suggestion stray_suggestion scenario_A_db).2 = Returns (ApplyBody "ok" 42) ∧
  ¬ ∃ status_code detail,
      (api_apply_suggestion stray_suggestion scenario_A_db).2 =
        HTTPException status_code detail.
Proof.
  split_and!.
  - vm_compute. reflexivity.
  - reflexivity.
  - intros (status_code & detail & H). discriminate H.
Qed.

Lemma api_apply_suggestion_unknown_id_witness :
  scenario_A_db !! eo_id (move_event stray_suggestion) = None ∧
  api_apply_suggestion stray_suggestion scenario_A_db =
    (scenario_A_db, Returns (ApplyBody "ok" 42)).
Proof.
  split; [vm_compute; reflexivity|].
  apply (api_apply_suggestion_unknown_id stray_suggestion scenario_A_db).
  vm_compute. reflexivity.
Defined.

Lemma api_apply_suggestion_frame_witness :
  scenario_A_db !! eo_id (move_event scenario_A_accepted) =
    Some (Row "Y" (at_hm 738000 9 30) (at_hm 738000 10 30) "") ∧
  (api_apply_suggestion scenario_A_accepted scenario_A_db).1 !! 2 =
    Some (Row "Y" (at_hm 738000 10 30) (at_hm 738000 11 30) "") ∧
  (api_apply_suggestion scenario_A_accepted scenario_A_db).1 !! 1 =
    scenario_A_db !! 1.
Proof.
  assert (scenario_A_db !! eo_id (move_event scenario_A_accepted) =
            Some (Row "Y" (at_hm 738000 9 30) (at_hm 738000 10 30) "")) as Hrow
    by (vm_compute; reflexivity).
  destruct (api_apply_suggestion_frame scenario_A_accepted scenario_A_db _ Hrow)
    as (Hmoved & Hothers & _).
  split_and!.
  - exact Hrow.
  - exact Hmoved.
  - apply Hothers. simpl. lia.
Defined.

(** A narrator that raises: the suggestion comes back with the failure text
    as its explanation, not with the explanation unset. *)
Lemma failed_narrator_sets_explanation :
  ∃ r, api_suggestions true failing_llm 0 scenario_A_db = Returns [r] ∧
       llm_explanation r = Some "(LLM failed: boom)" ∧
       llm_explanation r ≠ None.
Proof.
  eexists. split_and!.
  - vm_compute. reflexivity.
  - reflexivity.
  - discriminate.
Qed.

Lemma api_suggestions_narrator_witness :
  ∃ results r,
    api_suggestions true failing_llm 0 scenario_A_db = Returns results ∧
    length results = 1%nat ∧
    results !! 0%nat = Some r ∧
    llm_explanation r = Some "(LLM failed: boom)".
Proof.
  destruct (api_suggestions_narrator true failing_llm 0 scenario_A_db)
    as (results & Hret & Hlen & Hall).
  assert (rule_based_suggestions 0 scenario_A_db =
            [SuggestionDict
               (MoveEvent 2 "Y" (at_hm 738000 9 30) (at_hm 738000 10 30) "")
               (at_hm 738000 10 30) (at_hm 738000 11 30) "Resolve overlap with 'X'"])
    as Hsugs by (vm_compute; reflexivity).
  rewrite Hsugs in Hlen, Hall.
  destruct (Hall 0%nat _ eq_refl) as (r & Hr & _ & _ & Hfail).
  exists results, r. split_and!.
  - exact Hret.
  - exact Hlen.
  - exact Hr.
  - apply (Hfail "boom"); reflexivity.
Defined.

(** The fallback branch on whole-minute rows: the mover keeps its 14 hours,
    placed right after the anchor's end. *)
Example long_db_fallback :
  rule_based_suggestions 0 long_db =
    [SuggestionDict (MoveEvent 2 "B" (at_hm 738000 8 30) (at_hm 738000 22 30) "")
       (at_hm 738000 22 0) (at_hm 738001 12 0) reason_no_slot].
Proof. vm_compute. reflexivity. Qed.

(** * Further properties of the free-slot search *)

(** Every instant the loop over the busy windows steps over is covered:
    a start between the initial cursor and the resulting one overlaps one
    of the windows. *)
Lemma scan_busy_skipped duration cursor busy res t :
  scan_busy duration cursor busy = inl res ∨ scan_busy duration cursor busy = inr res →
  cursor ≤ t < res →
  ∃ w, w ∈ busy ∧ overlaps t (t + duration) w.1 w.2 = true.
Proof.
  revert cursor. induction busy as [|[b_start b_end] rest IH]; intros cursor Hscan Ht.
  - cbn in Hscan. destruct Hscan as [[=]|[= <-]]. lia.
  - cbn [scan_busy] in Hscan. case_decide as Hfit.
    + destruct Hscan as [[= <-]|[=]]. lia.
    + destruct (decide (Z.max cursor b_end ≤ t)) as [Hle|Hlt].
      * destruct (IH _ Hscan) as (w & Hw & Hov); [lia|].
        exists w. split; [by right|done].
      * exists (b_start, b_end). split; [left|].
        apply overlaps_spec. simpl. lia.
Qed.

(** The result of the loop is the initial cursor or the end of a window. *)
Lemma scan_busy_origin duration cursor busy res :
  scan_busy duration cursor busy = inl res ∨ scan_busy duration cursor busy = inr res →
  res = cursor ∨ ∃ w, w ∈ busy ∧ res = w.2.
Proof.
  revert cursor. induction busy as [|[b_start b_end] rest IH]; intros cursor Hscan.
  - cbn in Hscan. destruct Hscan as [[=]|[= <-]]. by left.
  - cbn [scan_busy] in Hscan. case_decide as Hfit.
    + destruct Hscan as [[= <-]|[=]]. by left.
    + destruct (IH _ Hscan) as [->|(w & Hw & ->)].
      * destruct (Z.max_spec cursor b_end) as [[_ ->]|[_ ->]]; [right|by left].
        exists (b_start, b_end). split; [left|done].
      * right. exists w. split; [by right|done].
Qed.

Lemma try_day_scan all_events duration probe day_offset :
  let day := date_of (probe + days day_offset) in
  let day_end := days day + hours 21 in
  ∃ res,
    (scan_busy duration (day_cursor probe day_offset) (busy_on all_events day) = inl res ∧
     try_day all_events duration probe day_offset = Some res) ∨
    (scan_busy duration (day_cursor probe day_offset) (busy_on all_events day) = inr res ∧
     try_day all_events duration probe day_offset =
       if decide (res + duration ≤ day_end) then Some res else None).
Proof.
  cbv zeta. unfold try_day, day_cursor, combine_min_time.
  set (day := date_of (probe + days day_offset)).
  set (cursor := if decide (day_offset = 0) then _ else _).
  destruct (busy_on all_events day) as [|w busy] eqn:Hb.
  - exists cursor. right. done.
  - destruct (scan_busy duration cursor (w :: busy)) as [res|res] eqn:Hscan;
      exists res; [left|right]; done.
Qed.

Lemma busy_on_blocked all_events day t duration w :
  date_of t = day →
  w ∈ busy_on all_events day →
  overlaps t (t + duration) w.1 w.2 = true →
  blocked all_events t duration.
Proof.
  intros Hday Hw Hov. apply elem_of_busy_on in Hw as (ev & Hin & Hev & ->).
  exists ev. split_and!; [done|congruence|done].
Qed.

(** A day that returns a slot: every earlier start of that day from the
    day's first cursor on is blocked. *)
Lemma try_day_first_fit all_events duration probe day_offset slot t :
  try_day all_events duration probe day_offset = Some slot →
  date_of t = date_of (probe + days day_offset) →
  day_cursor probe day_offset ≤ t < slot →
  blocked all_events t duration.
Proof.
  intros Htry Hday Ht.
  destruct (try_day_scan all_events duration probe day_offset) as [res [[Hscan Hres]|[Hscan Hres]]];
    cbv zeta in *; rewrite Htry in Hres.
  - injection Hres as <-.
    destruct (scan_busy_skipped _ _ _ _ t (or_introl Hscan) Ht) as (w & Hw & Hov).
    by eapply busy_on_blocked.
  - case_decide; [|done]. injection Hres as <-.
    destruct (scan_busy_skipped _ _ _ _ t (or_intror Hscan) Ht) as (w & Hw & Hov).
    by eapply busy_on_blocked.
Qed.

(** A day that returns nothing: every start of that day from the day's
    first cursor on whose window ends by 21:00 is blocked. *)
Lemma try_day_None all_events duration probe day_offset t :
  try_day all_events duration probe day_offset = None →
  date_of t = date_of (probe + days day_offset) →
  day_cursor probe day_offset ≤ t →
  t + duration ≤ days (date_of t) + hours 21 →
  blocked all_events t duration.
Proof.
  intros Htry Hday Ht Hend.
  destruct (try_day_scan all_events duration probe day_offset) as [res [[Hscan Hres]|[Hscan Hres]]];
    cbv zeta in *; rewrite Htry in Hres; [done|].
  case_decide as Hfit; [done|]. rewrite <- Hday in Hfit.
  destruct (scan_busy_skipped _ _ _ _ t (or_intror Hscan)) as (w & Hw & Hov); [lia|].
  by eapply busy_on_blocked.
Qed.

(** The first day that returns a slot, and the days before it. *)
Lemma first_day_seqZ all_events duration probe m n slot :
  first_day all_events duration probe (seqZ m n) = Some slot →
  ∃ k, m ≤ k < m + n ∧
       try_day all_events duration probe k = Some slot ∧
       ∀ k', m ≤ k' < k → try_day all_events duration probe k' = None.
Proof.
  remember (Z.to_nat n) as len eqn:Hlen. revert m n Hlen.
  induction len as [|len IH]; intros m n Hlen.
  - rewrite seqZ_nil by lia. done.
  - rewrite seqZ_cons by lia. cbn [first_day].
    destruct (try_day all_events duration probe m) as [s|] eqn:Hm.
    + intros [= <-]. exists m. split_and!; [lia|lia|done|lia].
    + intros Hrest. destruct (IH (Z.succ m) (Z.pred n)) as (k & Hk & Hslot & Hnone);
        [lia|done|].
      exists k. split_and!; [lia|lia|done|].
      intros k' Hk'. destruct (decide (k' = m)) as [->|]; [done|].
      apply Hnone. lia.
Qed.

Lemma first_day_seqZ_None all_events duration probe m n :
  first_day all_events duration probe (seqZ m n) = None →
  ∀ k, m ≤ k < m + n → try_day all_events duration probe k = None.
Proof.
  remember (Z.to_nat n) as len eqn:Hlen. revert m n Hlen.
  induction len as [|len IH]; intros m n Hlen Hnone k Hk; [lia|].
  rewrite seqZ_cons in Hnone by lia. cbn [first_day] in Hnone.
  destruct (try_day all_events duration probe m) as [s|] eqn:Hm; [done|].
  destruct (decide (k = m)) as [->|]; [done|].
  apply (IH (Z.succ m) (Z.pred n)); [lia|done|lia].
Qed.

(** Where a returned slot lies: on the day at some offset within the
    lookahead, from that day's first cursor on. *)
Lemma find_free_slot_day now all_events duration_minutes after_time search_days slot :
  0 ≤ duration_minutes →
  find_free_slot now all_events duration_minutes after_time search_days = Some slot →
  let probe := round_up_to_5min (default now after_time) in
  ∃ k, 0 ≤ k < search_days ∧
       date_of slot = date_of probe + k ∧
       day_cursor probe k ≤ slot ∧
       try_day all_events (minutes duration_minutes) probe k = Some slot ∧
       ∀ k', 0 ≤ k' < k → try_day all_events (minutes duration_minutes) probe k' = None.
Proof.
  unfold find_free_slot. intros Hdur Hfind. cbv zeta.
  replace (match after_time with Some t => t | None => now end)
    with (default now after_time) in Hfind by (by destruct after_time).
  set (probe := round_up_to_5min _) in *.
  apply first_day_seqZ in Hfind as (k & Hk & Htry & Hnone).
  exists k. pose proof Htry as Hspec.
  apply try_day_Some in Hspec as (Hcur & Hend & _).
  rewrite date_of_add_days in Hcur, Hend.
  assert (day_cursor probe k ≤ slot) as Hcursor.
  { unfold day_cursor. rewrite date_of_add_days. done. }
  assert (days (date_of probe + k) + hours 8 ≤ slot) as Hlo by (case_decide; lia).
  assert (slot < days (date_of probe + k) + days 1) as Hhi.
  { destruct Hend as [Hend|(ev & _ & Hev & Hend)].
    - unfold minutes, hours, days in *. lia.
    - pose proof (date_of_bounds (ev_start ev)) as Hb. rewrite Hev in Hb.
      unfold minutes in *. lia. }
  split_and!; [lia|lia| |done|done|intros; apply Hnone; lia].
  clear -Hlo Hhi. dt_lia.
Qed.

(** X1.  A slot returned for a non-negative duration is free: its window
    overlaps no event that starts on the slot's day. *)
Theorem find_free_slot_free now all_events duration_minutes after_time search_days slot :
  0 ≤ duration_minutes →
  find_free_slot now all_events duration_minutes after_time search_days = Some slot →
  ¬ blocked all_events slot (minutes duration_minutes).
Proof.
  intros Hdur Hfind (ev & Hin & Hday & Hov).
  apply find_free_slot_Some in Hfind as (_ & _ & Hfree); [|done].
  rewrite (Hfree ev Hin Hday) in Hov. done.
Qed.

(** X2.  A slot returned for a non-negative duration is not before the
    rounded lower bound nor before 08:00 of its own day, and its day is one
    of the [search_days] days counted from the day of the rounded lower
    bound. *)
Theorem find_free_slot_window now all_events duration_minutes after_time search_days slot :
  0 ≤ duration_minutes →
  find_free_slot now all_events duration_minutes after_time search_days = Some slot →
  let probe := round_up_to_5min (default now after_time) in
  probe ≤ slot ∧
  days (date_of slot) + hours 8 ≤ slot ∧
  date_of probe ≤ date_of slot < date_of probe + search_days.
Proof.
  intros Hdur Hfind. cbv zeta.
  pose proof (find_free_slot_Some _ _ _ _ _ _ Hdur Hfind) as (Hprobe & Hlo & _).
  destruct (find_free_slot_day _ _ _ _ _ _ Hdur Hfind) as (k & Hk & Hday & _).
  split_and!; [done|done|lia|lia].
Qed.

(** X3.  If no event starts after 21:00 of its day, a slot returned for a
    non-negative duration lies within working hours: it starts at or after
    08:00 and its window ends at or before 21:00 of the slot's day. *)
Theorem find_free_slot_in_working_hours now all_events duration_minutes after_time
    search_days slot :
  0 ≤ duration_minutes →
  (∀ ev, ev ∈ all_events → ev_start ev ≤ days (date_of (ev_start ev)) + hours 21) →
  find_free_slot now all_events duration_minutes after_time search_days = Some slot →
  in_working_hours slot (minutes duration_minutes).
Proof.
  intros Hdur Hearly Hfind.
  destruct (find_free_slot_day _ _ _ _ _ _ Hdur Hfind) as (k & _ & Hday & _ & Htry & _).
  pose proof (find_free_slot_Some _ _ _ _ _ _ Hdur Hfind) as (_ & Hlo & _).
  split; [done|].
  apply try_day_Some in Htry as (_ & Hend & _).
  rewrite date_of_add_days, <- Hday in Hend.
  destruct Hend as [Hend|(ev & Hin & Hev & Hend)]; [done|].
  specialize (Hearly ev Hin). rewrite Hev in Hearly. lia.
Qed.

(** X4.  First fit: every start between the rounded lower bound and a
    returned slot whose window would lie within working hours of its day is
    blocked by an event that starts on that day. *)
Theorem find_free_slot_first_fit now all_events duration_minutes after_time
    search_days slot t :
  0 ≤ duration_minutes →
  find_free_slot now all_events duration_minutes after_time search_days = Some slot →
  round_up_to_5min (default now after_time) ≤ t < slot →
  in_working_hours t (minutes duration_minutes) →
  blocked all_events t (minutes duration_minutes).
Proof.
  intros Hdur Hfind Ht [Hlo Hhi].
  destruct (find_free_slot_day _ _ _ _ _ _ Hdur Hfind)
    as (k & Hk & Hday & Hcur & Htry & Hnone).
  set (probe := round_up_to_5min _) in *.
  set (k' := date_of t - date_of probe).
  assert (0 ≤ k' ≤ k) as Hk'.
  { pose proof (date_of_bounds t). pose proof (date_of_bounds probe).
    pose proof (date_of_bounds slot). unfold k', days in *. lia. }
  assert (date_of t = date_of (probe + days k')) as Hdt
    by (rewrite date_of_add_days; unfold k'; lia).
  assert (day_cursor probe k' ≤ t) as Hcur'.
  { unfold day_cursor. rewrite <- Hdt. case_decide; lia. }
  destruct (decide (k' = k)) as [Heq|Hne].
  - rewrite Heq in *. apply (try_day_first_fit _ _ probe k slot); [exact Htry|done|lia].
  - apply (try_day_None _ _ probe k'); [apply Hnone; lia|done|done|done].
Qed.

(** X5.  When the search returns nothing, every start from the rounded
    lower bound on, on one of the [search_days] days, whose window would lie
    within working hours of its day is blocked by an event that starts on
    that day. *)
Theorem find_free_slot_None now all_events duration_minutes after_time search_days t :
  find_free_slot now all_events duration_minutes after_time search_days = None →
  let probe := round_up_to_5min (default now after_time) in
  probe ≤ t →
  date_of t < date_of probe + search_days →
  in_working_hours t (minutes duration_minutes) →
  blocked all_events t (minutes duration_minutes).
Proof.
  unfold find_free_slot. intros Hfind. cbv zeta.
  replace (match after_time with Some t => t | None => now end)
    with (default now after_time) in Hfind by (by destruct after_time).
  set (probe := round_up_to_5min _) in *. intros Ht Hdays [Hlo Hhi].
  set (k' := date_of t - date_of probe).
  assert (0 ≤ k') as Hk'.
  { pose proof (date_of_bounds t). pose proof (date_of_bounds probe).
    unfold k', days in *. lia. }
  assert (date_of t = date_of (probe + days k')) as Hdt
    by (rewrite date_of_add_days; unfold k'; lia).
  apply (try_day_None _ _ probe k'); [|exact Hdt| |done].
  - apply (first_day_seqZ_None _ _ _ 0 search_days); [exact Hfind|]. unfold k'. lia.
  - unfold day_cursor. rewrite <- Hdt. case_decide; lia.
Qed.

Lemma find_free_slot_origin_aux now all_events duration_minutes after_time search_days slot :
  0 ≤ duration_minutes →
  find_free_slot now all_events duration_minutes after_time search_days = Some slot →
  slot = round_up_to_5min (default now after_time) ∨
  slot = days (date_of slot) + hours 8 ∨
  ∃ ev, ev ∈ all_events ∧ slot = ev_end ev.
Proof.
  intros Hdur Hfind.
  destruct (find_free_slot_day _ _ _ _ _ _ Hdur Hfind) as (k & _ & Hday & _ & Htry & _).
  set (probe := round_up_to_5min _) in *.
  assert (∃ res, res = slot ∧
            (scan_busy (minutes duration_minutes) (day_cursor probe k)
               (busy_on all_events (date_of (probe + days k))) = inl res ∨
             scan_busy (minutes duration_minutes) (day_cursor probe k)
               (busy_on all_events (date_of (probe + days k))) = inr res))
    as (res & -> & Hscan).
  { destruct (try_day_scan all_events (minutes duration_minutes) probe k)
      as [res [[Hscan Hres]|[Hscan Hres]]]; cbv zeta in *; rewrite Htry in Hres.
    - injection Hres as <-. eauto.
    - case_decide; [|done]. injection Hres as <-. eauto. }
  assert (day_cursor probe k = probe ∨
          day_cursor probe k = days (date_of slot) + hours 8) as Hcursor.
  { unfold day_cursor. rewrite date_of_add_days, <- Hday.
    case_decide; [|by right].
    destruct (Z.max_spec probe (days (date_of slot) + hours 8)) as [[_ ->]|[_ ->]];
      [right|left]; done. }
  apply scan_busy_origin in Hscan as [Hres|(w & Hw & Hres)].
  - rewrite <- Hres in Hcursor. destruct Hcursor as [Hc|Hc]; [by left|by right; left].
  - right. right. apply elem_of_busy_on in Hw as (ev & Hin & _ & ->). eauto.
Qed.

(** X6.  A slot returned for a non-negative duration is the rounded lower
    bound, 08:00 of its day, or the end of one of the events: only the
    lower bound is rounded to 5 minutes, an event's end is taken as it is. *)
Theorem find_free_slot_origin now all_events duration_minutes after_time search_days slot :
  0 ≤ duration_minutes →
  find_free_slot now all_events duration_minutes after_time search_days = Some slot →
  slot = round_up_to_5min (default now after_time) ∨
  slot = days (date_of slot) + hours 8 ∨
  ∃ ev, ev ∈ all_events ∧ slot = ev_end ev.
Proof. apply find_free_slot_origin_aux. Qed.

(** X7.  Whatever the instant, the rounding lands on a 5-minute boundary
    that is less than 5 minutes after it and less than a minute before it,
    and rounding again changes nothing. *)
Theorem round_up_to_5min_lands dt :
  on_5min_boundary (round_up_to_5min dt) ∧
  dt - minutes 1 < round_up_to_5min dt < dt + minutes 5 ∧
  round_up_to_5min (round_up_to_5min dt) = round_up_to_5min dt.
Proof.
  split_and!.
  - apply round_up_to_5min_boundary.
  - apply round_up_to_5min_range.
  - apply round_up_to_5min_range.
  - apply round_up_to_5min_fixed, round_up_to_5min_boundary.
Qed.

(** X8.  For an instant on a whole minute the rounding is the least
    5-minute boundary at or after it. *)
Theorem round_up_to_5min_least dt :
  whole_minute dt →
  dt ≤ round_up_to_5min dt ∧
  on_5min_boundary (round_up_to_5min dt) ∧
  ∀ dt', dt ≤ dt' → on_5min_boundary dt' → round_up_to_5min dt ≤ dt'.
Proof.
  intros Hwhole. destruct (round_up_to_5min_whole_minute dt Hwhole) as [Hle Hleast].
  split_and!; [done|apply round_up_to_5min_boundary|done].
Qed.

(** * Further properties of the listing and of conflict detection *)

Lemma StronglySorted_lookup {A} (R : relation A) l i j x y :
  StronglySorted R l → (i < j)%nat → l !! i = Some x → l !! j = Some y → R x y.
Proof.
  intros Hsorted. revert i j.
  induction Hsorted as [|z l Hl IH Hz]; intros i j Hij Hi Hj; [done|].
  destruct j as [|j]; [lia|]. simpl in Hj. destruct i as [|i].
  - injection Hi as <-. rewrite Forall_forall in Hz.
    by eapply Hz, list_elem_of_lookup_2.
  - simpl in Hi. apply (IH i j); (done || lia).
Qed.

Lemma sorted_rows_spec (db : gmap Z row) :
  StronglySorted by_start_iso (merge_sort by_start_iso (map_to_list db)) ∧
  NoDup (merge_sort by_start_iso (map_to_list db)).*1 ∧
  length (merge_sort by_start_iso (map_to_list db)) = size db ∧
  ∀ id r, (id, r) ∈ merge_sort by_start_iso (map_to_list db) ↔ db !! id = Some r.
Proof.
  split_and!.
  - apply StronglySorted_merge_sort; apply _.
  - rewrite merge_sort_Permutation. apply NoDup_fst_map_to_list.
  - rewrite merge_sort_Permutation. apply length_map_to_list.
  - intros id r. rewrite merge_sort_Permutation. apply elem_of_map_to_list.
Qed.

Lemma snapshot_rows db :
  snapshot db =
    (λ kr, event_of_row kr.1 kr.2) <$> merge_sort by_start_iso (map_to_list db).
Proof.
  unfold snapshot, parse_events, list_events_db. rewrite <- list_fmap_compose. done.
Qed.

Lemma snapshot_lookup db i ev :
  snapshot db !! i = Some ev →
  ∃ id r, merge_sort by_start_iso (map_to_list db) !! i = Some (id, r) ∧
          db !! id = Some r ∧ ev = event_of_row id r.
Proof.
  rewrite snapshot_rows, list_lookup_fmap. intros Hev.
  destruct (merge_sort _ _ !! i) as [[id r]|] eqn:Hi; [|done].
  injection Hev as <-. exists id, r. split_and!; [done| |done].
  apply (sorted_rows_spec db). by eapply list_elem_of_lookup_2.
Qed.

(** Two positions of the snapshot, the first before the second: the events
    are two stored rows under different ids, the first starting no later. *)
Lemma snapshot_ordered db i j a b :
  (i < j)%nat → snapshot db !! i = Some a → snapshot db !! j = Some b →
  ∃ ia ra ib rb,
    db !! ia = Some ra ∧ db !! ib = Some rb ∧ ia ≠ ib ∧
    a = event_of_row ia ra ∧ b = event_of_row ib rb ∧
    row_start_iso ra ≤ row_start_iso rb.
Proof.
  intros Hij Ha Hb.
  apply snapshot_lookup in Ha as (ia & ra & Hia & Hra & ->).
  apply snapshot_lookup in Hb as (ib & rb & Hib & Hrb & ->).
  destruct (sorted_rows_spec db) as (Hsorted & Hnodup & _).
  exists ia, ra, ib, rb. split_and!; try done.
  - intros ->. assert (i = j); [|lia].
    eapply NoDup_lookup; [exact Hnodup| |]; rewrite list_lookup_fmap.
    + by rewrite Hia.
    + by rewrite Hib.
  - apply (StronglySorted_lookup _ _ i j (ia, ra) (ib, rb) Hsorted); done.
Qed.

Lemma snapshot_position db id r :
  db !! id = Some r → ∃ i, snapshot db !! i = Some (event_of_row id r).
Proof.
  intros Hr. apply (sorted_rows_spec db), list_elem_of_lookup_1 in Hr as [i Hi].
  exists i. by rewrite snapshot_rows, list_lookup_fmap, Hi.
Qed.


Lemma check_conflicts_sound_aux (db : gmap Z row) a b :
  (a, b) ∈ scan_conflicts (snapshot db) →
  ∃ ia ra ib rb,
    db !! ia = Some ra ∧ db !! ib = Some rb ∧ ia ≠ ib ∧
    a = event_of_row ia ra ∧ b = event_of_row ib rb ∧
    ev_start a ≤ ev_start b ∧ windows_overlap a b.
Proof.
  intros Hab.
  apply elem_of_scan_conflicts in Hab as (i & j & Hij & Ha & Hb & Hov).
  destruct (snapshot_ordered db i j a b Hij Ha Hb)
    as (ia & ra & ib & rb & Hra & Hrb & Hne & -> & -> & Hle).
  exists ia, ra, ib, rb. split_and!; done.
Qed.


Lemma check_conflicts_complete_aux (db : gmap Z row) ia ra ib rb :
  db !! ia = Some ra → db !! ib = Some rb → ia ≠ ib →
  windows_overlap (event_of_row ia ra) (event_of_row ib rb) →
  (event_of_row ia ra, event_of_row ib rb) ∈ check_conflicts db ∨
  (event_of_row ib rb, event_of_row ia ra) ∈ check_conflicts db.
Proof.
  intros Hra Hrb Hne [H1 H2]. unfold check_conflicts. fold (snapshot db).
  destruct (snapshot_position db ia ra Hra) as [i Hi].
  destruct (snapshot_position db ib rb Hrb) as [j Hj].
  assert (i ≠ j) as Hij.
  { intros ->. rewrite Hi in Hj. injection Hj as Hid _. done. }
  destruct (decide (i < j)%nat).
  - left. apply elem_of_scan_conflicts. exists i, j. split_and!; done.
  - right. apply elem_of_scan_conflicts. exists j, i. split_and!; (done || lia).
Qed.

(** X11.  No overlap is missed: two rows stored under different ids whose
    windows overlap are reported, in one order or the other. *)
Theorem check_conflicts_complete (db : gmap Z row) ia ra ib rb :
  db !! ia = Some ra → db !! ib = Some rb → ia ≠ ib →
  windows_overlap (event_of_row ia ra) (event_of_row ib rb) →
  (event_of_row ia ra, event_of_row ib rb) ∈ check_conflicts db ∨
  (event_of_row ib rb, event_of_row ia ra) ∈ check_conflicts db.
Proof. apply check_conflicts_complete_aux. Qed.

(** * Further properties of the suggestions *)


(** The suggestion for a pair whose first event starts no later than the
    second: the second moves, the first is the anchor. *)
Lemma suggest_ordered now all_events a b :
  ev_start a ≤ ev_start b →
  let s := suggest now all_events (a, b) in
  let duration_minutes := total_seconds_floordiv_60 (ev_end b - ev_start b) in
  sd_move_event s =
    MoveEvent (ev_id b) (ev_title b) (isoformat_minutes (ev_start b))
      (isoformat_minutes (ev_end b)) (ev_place b) ∧
  ((∃ slot,
      find_free_slot now all_events duration_minutes (Some (ev_end a)) 7 = Some slot ∧
      sd_new_start_iso s = isoformat_minutes slot ∧
      sd_new_end_iso s = isoformat_minutes (slot + minutes duration_minutes) ∧
      sd_reason s = "Resolve overlap with '" +:+ ev_title a +:+ "'") ∨
   (find_free_slot now all_events duration_minutes (Some (ev_end a)) 7 = None ∧
    sd_new_start_iso s = isoformat_minutes (ev_end a) ∧
    sd_new_end_iso s = isoformat_minutes (ev_end a + (ev_end b - ev_start b)) ∧
    sd_reason s = reason_no_slot)).
Proof.
  intros Hle. cbv zeta. unfold suggest.
  rewrite bool_decide_eq_true_2 by lia.
  destruct (find_free_slot _ _ _ _ _) as [slot|]; simpl.
  - split; [done|]. left. exists slot. done.
  - split; [done|]. by right.
Qed.

Lemma resolve_reason_not_fallback title :
  "Resolve overlap with '" +:+ title +:+ "'" ≠ reason_no_slot.
Proof. done. Qed.

(** Every suggestion comes from two stored rows with different ids. *)
Lemma rule_based_suggestions_origin now (db : gmap Z row) s :
  s ∈ rule_based_suggestions now db →
  ∃ ia ra ib rb,
    db !! ia = Some ra ∧ db !! ib = Some rb ∧ ia ≠ ib ∧
    row_start_iso ra ≤ row_start_iso rb ∧
    s = suggest now (snapshot db) (event_of_row ia ra, event_of_row ib rb).
Proof.
  unfold rule_based_suggestions. fold (snapshot db). intros Hs.
  apply list_elem_of_fmap in Hs as ([a b] & -> & Hab).
  apply check_conflicts_sound_aux in Hab
    as (ia & ra & ib & rb & Hra & Hrb & Hne & -> & -> & Hle & _).
  exists ia, ra, ib, rb. split_and!; done.
Qed.



Lemma on_5min_boundary_whole dt : on_5min_boundary dt → whole_minute dt.
Proof. by intros [_ H]. Qed.

Lemma whole_minute_day_start day : whole_minute (days day + hours 8).
Proof. dt_lia. Qed.

Lemma whole_minute_add_minutes dt m : whole_minute dt → whole_minute (dt + minutes m).
Proof. intros H. dt_lia. Qed.

Lemma isoformat_minutes_is_whole dt : whole_minute (isoformat_minutes dt).
Proof. dt_lia. Qed.

Lemma floordiv_60_nonneg td : 0 ≤ td → 0 ≤ total_seconds_floordiv_60 td.
Proof. intros H. dt_lia. Qed.

Lemma snapshot_whole_minute db ev :
  whole_minute_table db → ev ∈ snapshot db →
  whole_minute (ev_start ev) ∧ whole_minute (ev_end ev).
Proof.
  intros Hwhole Hev. apply elem_of_parse_events in Hev as (id & r & Hr & ->).
  exact (Hwhole id r Hr).
Qed.

(** X14.  On a table whose timestamps are on whole minutes and whose rows
    end after they start, a suggestion that is not the fallback proposes a
    window that overlaps no stored event starting on the proposed day, the
    anchor and the mover's present window included. *)
Theorem suggestion_slot_is_free now (db : gmap Z row) s :
  whole_minute_table db → well_formed_table db →
  s ∈ rule_based_suggestions now db →
  sd_reason s ≠ reason_no_slot →
  ∀ id r, db !! id = Some r →
    date_of (row_start_iso r) = date_of (sd_new_start_iso s) →
    overlaps (sd_new_start_iso s) (sd_new_end_iso s)
             (row_start_iso r) (row_end_iso r) = false.
Proof.
  intros Hwhole Hwf Hs Hreason id r Hr Hday.
  apply rule_based_suggestions_origin in Hs
    as (ia & ra & ib & rb & Hra & Hrb & _ & Hle & ->).
  pose proof (suggest_ordered now (snapshot db) (event_of_row ia ra)
                (event_of_row ib rb) Hle) as Hs. cbv zeta in Hs.
  set (s := suggest _ _ _) in *. clearbody s. cbn [ev_start ev_end event_of_row] in Hs.
  destruct Hs as [_ [(slot & Hfind & Hstart & Hend & _)|(_ & _ & _ & Hfallback)]];
    [|done].
  assert (0 ≤ total_seconds_floordiv_60 (row_end_iso rb - row_start_iso rb)) as Hdur.
  { apply floordiv_60_nonneg. specialize (Hwf _ _ Hrb). lia. }
  assert (whole_minute slot) as Hslot.
  { destruct (find_free_slot_origin_aux _ _ _ _ _ _ Hdur Hfind)
      as [->|[->|(ev & Hev & ->)]].
    - apply on_5min_boundary_whole, round_up_to_5min_boundary.
    - apply whole_minute_day_start.
    - by apply (snapshot_whole_minute db). }
  rewrite isoformat_minutes_whole in Hstart by done.
  rewrite isoformat_minutes_whole in Hend by (by apply whole_minute_add_minutes).
  rewrite Hstart in Hday |- *. rewrite Hend.
  apply find_free_slot_Some in Hfind as (_ & _ & Hfree); [|done].
  apply (Hfree (event_of_row id r)); [|done].
  apply elem_of_parse_events. eauto.
Qed.

(** * Further properties of Apply *)

Lemma api_apply_suggestion_lookup (s : Suggestion) (db : gmap Z row) :
  (api_apply_suggestion s db).1 !! eo_id (move_event s) =
    (λ r, Row (row_title r) (new_start_iso s) (new_end_iso s) (row_place r))
      <$> db !! eo_id (move_event s) ∧
  dom (api_apply_suggestion s db).1 = dom db.
Proof.
  unfold api_apply_suggestion. cbn [fst]. split.
  - by rewrite update_event_time_db_lookup, decide_True.
  - apply dom_alter_L.
Qed.

Lemma list_events_db_rows (db : gmap Z row) :
  length (list_events_db db) = size db ∧
  ∀ id r, row_dict (id, r) ∈ list_events_db db ↔ db !! id = Some r.
Proof.
  destruct (sorted_rows_spec db) as (_ & _ & Hlen & Hin).
  unfold list_events_db. split; [by rewrite length_fmap|].
  intros id r. rewrite <- Hin, list_elem_of_fmap. split.
  - intros ([id' r'] & Heq & Hin'). destruct r, r'. unfold row_dict in Heq.
    simpl in Heq. by simplify_eq.
  - intros Hin'. by exists (id, r).
Qed.

(** X15.  Applying the same suggestion twice leaves the table and the
    response as applying it once. *)
Theorem api_apply_suggestion_idempotent (s : Suggestion) (db : gmap Z row) :
  api_apply_suggestion s (api_apply_suggestion s db).1 = api_apply_suggestion s db.
Proof.
  unfold api_apply_suggestion. cbn [fst]. f_equal.
  apply map_eq. intros id. rewrite !update_event_time_db_lookup.
  case_decide; [|done]. by destruct (db !! id).
Qed.

(** X16.  Suggestions for different event ids can be applied in either
    order: the resulting table is the same. *)
Theorem api_apply_suggestion_commute (s1 s2 : Suggestion) (db : gmap Z row) :
  eo_id (move_event s1) ≠ eo_id (move_event s2) →
  (api_apply_suggestion s1 (api_apply_suggestion s2 db).1).1 =
  (api_apply_suggestion s2 (api_apply_suggestion s1 db).1).1.
Proof.
  intros Hne. unfold api_apply_suggestion. cbn [fst].
  apply map_eq. intros id. rewrite !update_event_time_db_lookup.
  repeat case_decide; (done || congruence).
Qed.

(** X17.  After a suggestion for a stored event is applied, [/events] lists
    as many events as before, among them that event under its id, title and
    place with the new start and end. *)
Theorem api_apply_suggestion_listed (s : Suggestion) (db : gmap Z row) (r : row) :
  db !! eo_id (move_event s) = Some r →
  ∃ listed,
    get_events (api_apply_suggestion s db).1 = Returns listed ∧
    length listed = size db ∧
    mkEventOut (eo_id (move_event s)) (row_title r) (new_start_iso s) (new_end_iso s)
               (Some (row_place r)) ∈ listed.
Proof.
  intros Hr. unfold get_events. eexists. split; [done|].
  destruct (api_apply_suggestion_lookup s db) as [Hmoved Hdom].
  split.
  - rewrite length_fmap.
    destruct (list_events_db_rows (api_apply_suggestion s db).1) as [-> _].
    rewrite <- !size_dom. by rewrite Hdom.
  - apply list_elem_of_fmap.
    exists (row_dict (eo_id (move_event s),
                      Row (row_title r) (new_start_iso s) (new_end_iso s) (row_place r))).
    split; [done|]. apply elem_of_list_events_db. eexists _, _. split; [|done].
    by rewrite Hmoved, Hr.
Qed.

(** X18.  On a table whose timestamps are on whole minutes and whose rows
    end after they start, applying any suggestion that [/suggestions]
    returns keeps both properties. *)
Theorem apply_returned_suggestion_keeps_table
    (USE_LLM : bool) (llm_invoke : string → iso → iso → iso → iso → llm_outcome)
    (now : datetime) (db : gmap Z row) results (r : Suggestion) :
  whole_minute_table db → well_formed_table db →
  api_suggestions USE_LLM llm_invoke now db = Returns results →
  r ∈ results →
  whole_minute_table (api_apply_suggestion r db).1 ∧
  well_formed_table (api_apply_suggestion r db).1.
Proof.
  intros Hwhole Hwf Hret Hr. unfold api_suggestions in Hret.
  injection Hret as <-. apply list_elem_of_fmap in Hr as (s & -> & Hs).
  apply rule_based_suggestions_origin in Hs
    as (ia & ra & ib & rb & Hra & Hrb & _ & Hle & ->).
  pose proof (suggest_ordered now (snapshot db) (event_of_row ia ra)
                (event_of_row ib rb) Hle) as Hs. cbv zeta in Hs.
  set (s := suggest _ _ _) in *. clearbody s. cbn [ev_start ev_end event_of_row] in Hs.
  destruct Hs as [Hmover Hnew].
  destruct (Hwhole _ _ Hra) as [_ Hae], (Hwhole _ _ Hrb) as [Hbs Hbe].
  pose proof (Hwf _ _ Hrb) as Hb.
  assert (whole_minute (sd_new_start_iso s) ∧ whole_minute (sd_new_end_iso s) ∧
          sd_new_start_iso s < sd_new_end_iso s) as (Hws & Hwe & Hlt).
  { destruct Hnew as [(slot & _ & -> & -> & _)|(_ & -> & -> & _)].
    - split_and!; [apply isoformat_minutes_is_whole..|].
      rewrite isoformat_minutes_add, floordiv_60_whole by (by apply whole_minute_sub).
      lia.
    - split_and!; [apply isoformat_minutes_is_whole..|].
      rewrite (isoformat_minutes_whole (row_end_iso ra)) by done.
      rewrite isoformat_minutes_whole
        by (apply whole_minute_add; [done|by apply whole_minute_sub]).
      lia. }
  unfold api_apply_suggestion. cbn [fst move_event new_start_iso new_end_iso eo_id].
  split; intros id r Hlook; rewrite update_event_time_db_lookup in Hlook;
    case_decide; try (by eauto);
    destruct (db !! id) as [r0|] eqn:Hid; try done; injection Hlook as <-; simpl; done.
Qed.

(** * Properties of insertion, listing and clearing *)

Lemma foldr_max_ge (l : list Z) x : x ∈ l → x ≤ foldr Z.max 0 l.
Proof.
  induction l as [|y l IH]; intros Hx; [by apply not_elem_of_nil in Hx|].
  inv Hx; simpl; [lia|].
  match goal with H : x ∈ l |- _ => specialize (IH H) end. lia.
Qed.

Lemma foldr_max_le (l : list Z) bound :
  0 ≤ bound → (∀ x, x ∈ l → x ≤ bound) → foldr Z.max 0 l ≤ bound.
Proof.
  intros Hb. induction l as [|y l IH]; intros Hl; simpl; [done|].
  assert (y ≤ bound) by (apply Hl; left).
  assert (foldr Z.max 0 l ≤ bound) by (apply IH; intros x Hx; apply Hl; by right).
  lia.
Qed.

Lemma max_rowid_ge (events : gmap Z row) id r :
  events !! id = Some r → id ≤ max_rowid events.
Proof.
  intros Hr. apply foldr_max_ge, list_elem_of_fmap.
  exists (id, r). split; [done|]. by apply elem_of_map_to_list.
Qed.

Lemma max_rowid_covered (d : database) :
  sequence_covers d → Z.max (db_sequence d) (max_rowid (db_events d)) = db_sequence d.
Proof.
  intros [Hseq Hcov]. apply Z.max_l, foldr_max_le; [done|].
  intros id Hid. apply list_elem_of_fmap in Hid as ([id' r] & -> & Hin).
  apply elem_of_map_to_list in Hin. apply (Hcov id' r Hin).
Qed.

(** The id [add_event_db] gives to a new row. *)
Lemma new_rowid_fresh (d : database) :
  let ev_id := Z.max (db_sequence d) (max_rowid (db_events d)) + 1 in
  db_sequence d < ev_id ∧ db_events d !! ev_id = None ∧
  ∀ id r, db_events d !! id = Some r → id < ev_id.
Proof.
  cbv zeta. split_and!.
  - lia.
  - destruct (db_events d !! _) as [r|] eqn:Hr; [|done].
    apply max_rowid_ge in Hr. lia.
  - intros id r Hr. apply max_rowid_ge in Hr. lia.
Qed.

Lemma add_event_valid (e : EventIn) (d : database) :
  ei_start_iso e < ei_end_iso e →
  let ev_id := Z.max (db_sequence d) (max_rowid (db_events d)) + 1 in
  add_event e d =
    (Database
       (<[ev_id := Row (ei_title e) (ei_start_iso e) (ei_end_iso e)
                       (default "" (ei_place e))]> (db_events d)) ev_id,
     Returns (mkEventOut ev_id (ei_title e) (ei_start_iso e) (ei_end_iso e) (ei_place e))).
Proof.
  intros Hlt. cbv zeta. unfold add_event, add_event_db, fromisoformat.
  by rewrite decide_False by lia.
Qed.

Lemma add_event_invalid (e : EventIn) (d : database) :
  ei_end_iso e ≤ ei_start_iso e →
  add_event e d = (d, HTTPException 400 "end must be after start").
Proof.
  intros Hle. unfold add_event, add_event_db, fromisoformat.
  by rewrite decide_True by lia.
Qed.

Lemma add_event_outcome_aux (e : EventIn) (d : database) :
  (ei_end_iso e ≤ ei_start_iso e ∧
   add_event e d = (d, HTTPException 400 "end must be after start")) ∨
  (ei_start_iso e < ei_end_iso e ∧
   ∃ d' out,
     add_event e d = (d', Returns out) ∧
     out = mkEventOut (eo_id out) (ei_title e) (ei_start_iso e) (ei_end_iso e)
                      (ei_place e) ∧
     db_events d !! eo_id out = None ∧
     (∀ id r, db_events d !! id = Some r → id < eo_id out) ∧
     db_sequence d < eo_id out ∧
     db_sequence d' = eo_id out).
Proof.
  destruct (decide (ei_end_iso e ≤ ei_start_iso e)) as [Hle|Hlt].
  - left. split; [done|]. by apply add_event_invalid.
  - right. split; [lia|]. eexists _, _. split; [apply add_event_valid; lia|].
    destruct (new_rowid_fresh d) as (Hseq & Hnone & Hmax).
    cbn [eo_id db_sequence]. split_and!; done.
Qed.


(** X20.  A row added through [/add] is stored under the returned id with
    the title and texts given and the place, or the empty text when none
    was given; every other id keeps its row; and [/events] then lists one
    event more, among them the new one. *)
Theorem add_event_stored (e : EventIn) (d d' : database) (out : EventOut) :
  add_event e d = (d', Returns out) →
  db_events d' !! eo_id out =
    Some (Row (ei_title e) (ei_start_iso e) (ei_end_iso e) (default "" (ei_place e))) ∧
  (∀ id, id ≠ eo_id out → db_events d' !! id = db_events d !! id) ∧
  ∃ listed,
    get_events (db_events d') = Returns listed ∧
    length listed = S (size (db_events d)) ∧
    mkEventOut (eo_id out) (ei_title e) (ei_start_iso e) (ei_end_iso e)
               (Some (default "" (ei_place e))) ∈ listed.
Proof.
  intros Hadd.
  destruct (decide (ei_end_iso e ≤ ei_start_iso e)) as [Hle|Hlt].
  { by rewrite add_event_invalid in Hadd. }
  rewrite add_event_valid in Hadd by lia. injection Hadd as <- <-.
  cbn [eo_id db_events]. destruct (new_rowid_fresh d) as (_ & Hnone & _).
  set (ev_id := Z.max _ _ + 1) in *.
  split_and!.
  - apply lookup_insert_eq.
  - intros id Hid. by apply lookup_insert_ne.
  - unfold get_events. eexists. split; [done|]. split.
    + rewrite length_fmap.
      destruct (list_events_db_rows (<[ev_id := Row (ei_title e) (ei_start_iso e)
                  (ei_end_iso e) (default "" (ei_place e))]> (db_events d))) as [-> _].
      by apply map_size_insert_None.
    + apply list_elem_of_fmap.
      exists (row_dict (ev_id, Row (ei_title e) (ei_start_iso e) (ei_end_iso e)
                                   (default "" (ei_place e)))).
      split; [done|]. apply elem_of_list_events_db. eexists _, _. split; [|done].
      apply lookup_insert_eq.
Qed.

(** X21.  [/add] keeps the table well formed (every row ends after it
    starts) and the counter covering the ids; while the counter covers the
    ids, an accepted event gets the id one above the counter. *)
Theorem add_event_keeps_invariants (e : EventIn) (d : database) :
  sequence_covers d → well_formed_table (db_events d) →
  sequence_covers (add_event e d).1 ∧
  well_formed_table (db_events (add_event e d).1) ∧
  (ei_start_iso e < ei_end_iso e →
   ∃ out, (add_event e d).2 = Returns out ∧ eo_id out = db_sequence d + 1).
Proof.
  intros Hcov Hwf.
  destruct (decide (ei_end_iso e ≤ ei_start_iso e)) as [Hle|Hlt].
  { rewrite add_event_invalid by done. split_and!; [done|done|lia]. }
  rewrite add_event_valid by lia. rewrite max_rowid_covered by done.
  destruct Hcov as [Hseq Hcov]. cbn [fst snd db_events db_sequence]. split_and!.
  - split; [simpl; lia|]. intros id r. cbn [db_events db_sequence].
    rewrite lookup_insert_Some. intros [[<- _]|[_ Hr]]; [lia|].
    specialize (Hcov id r Hr). lia.
  - intros id r. rewrite lookup_insert_Some. intros [[_ <-]|[_ Hr]]; [simpl; lia|].
    by apply (Hwf id r).
  - intros _. eexists. split; [done|]. done.
Qed.

(** X22.  Clearing resets the counter with the table: the first event
    accepted after [/clear_db] gets id 1 again, whatever was stored before. *)
Theorem add_event_after_clear (e : EventIn) (d : database) :
  ei_start_iso e < ei_end_iso e →
  add_event e (api_clear_db d).1 =
    (Database {[1 := Row (ei_title e) (ei_start_iso e) (ei_end_iso e)
                         (default "" (ei_place e))]} 1,
     Returns (mkEventOut 1 (ei_title e) (ei_start_iso e) (ei_end_iso e) (ei_place e))).
Proof.
  intros Hlt. rewrite add_event_valid by done.
  unfold api_clear_db, clear_db. cbn [fst db_events db_sequence].
  unfold max_rowid. rewrite map_to_list_empty. done.
Qed.

(** X23.  Without a clear in between, a later accepted event gets a larger
    id than an earlier one: ids are not reused while the counter does not
    go down. *)
Theorem add_event_ids_increase (e1 e2 : EventIn) (d d1 d2 d3 : database)
    (out1 out2 : EventOut) :
  add_event e1 d = (d1, Returns out1) →
  db_sequence d1 ≤ db_sequence d2 →
  add_event e2 d2 = (d3, Returns out2) →
  eo_id out1 < eo_id out2.
Proof.
  intros Hadd1 Hseq Hadd2.
  destruct (add_event_outcome_aux e1 d) as [[_ H1]|(_ & d1' & o1 & H1 & _ & _ & _ & _ & Hs1)];
    rewrite Hadd1 in H1; [done|]. injection H1 as <- <-.
  destruct (add_event_outcome_aux e2 d2) as [[_ H2]|(_ & d3' & o2 & H2 & _ & _ & _ & Hs2 & _)];
    rewrite Hadd2 in H2; [done|]. injection H2 as <- <-.
  lia.
Qed.

(** X24.  [/conflicts] and [/suggestions] return the empty list exactly
    when no two rows stored under different ids have overlapping windows. *)
Theorem api_conflicts_empty_iff
    (USE_LLM : bool) (llm_invoke : string → iso → iso → iso → iso → llm_outcome)
    (now : datetime) (db : gmap Z row) :
  let conflict_free :=
    ∀ ia ra ib rb, db !! ia = Some ra → db !! ib = Some rb → ia ≠ ib →
      ¬ windows_overlap (event_of_row ia ra) (event_of_row ib rb) in
  (api_conflicts db = Returns [] ↔ conflict_free) ∧
  (api_suggestions USE_LLM llm_invoke now db = Returns [] ↔ conflict_free).
Proof.
  cbv zeta.
  assert (check_conflicts db = [] ↔
          ∀ ia ra ib rb, db !! ia = Some ra → db !! ib = Some rb → ia ≠ ib →
            ¬ windows_overlap (event_of_row ia ra) (event_of_row ib rb)) as Hcc.
  { split.
    - intros Hnil ia ra ib rb Hra Hrb Hne Hov.
      destruct (check_conflicts_complete_aux db ia ra ib rb Hra Hrb Hne Hov) as [Hin|Hin];
        rewrite Hnil in Hin; by apply not_elem_of_nil in Hin.
    - intros Hfree. destruct (check_conflicts db) as [|[a b] l] eqn:Hl; [done|].
      assert ((a, b) ∈ check_conflicts db) as Hin by (rewrite Hl; left).
      apply check_conflicts_sound_aux in Hin
        as (ia & ra & ib & rb & Hra & Hrb & Hne & -> & -> & _ & Hov).
      by destruct (Hfree ia ra ib rb). }
  rewrite <- Hcc. unfold api_conflicts, api_suggestions, rule_based_suggestions.
  split; split.
  - intros [= Hnil]. by apply fmap_nil_inv in Hnil.
  - by intros ->.
  - intros [= Hnil]. by apply fmap_nil_inv, fmap_nil_inv in Hnil.
  - by intros ->.
Qed.

(** * The further properties at concrete inputs *)

Lemma scenario_A_slot :
  find_free_slot 0 (snapshot scenario_A_db) 60 (Some (at_hm 738000 10 0)) 7 =
    Some (at_hm 738000 10 30).
Proof. vm_compute. reflexivity. Defined.

Lemma scenario_A_db_well_formed : well_formed_table scenario_A_db.
Proof.
  intros id r Hr. unfold scenario_A_db in Hr.
  apply lookup_insert_Some in Hr as [[_ <-]|[_ Hr]].
  - reflexivity.
  - apply lookup_singleton_Some in Hr as [_ <-]. reflexivity.
Defined.

Lemma find_free_slot_free_witness :
  0 ≤ 60 ∧
  find_free_slot 0 (snapshot scenario_A_db) 60 (Some (at_hm 738000 10 0)) 7 =
    Some (at_hm 738000 10 30) ∧
  ¬ blocked (snapshot scenario_A_db) (at_hm 738000 10 30) (minutes 60).
Proof.
  split; [lia|]. split; [exact scenario_A_slot|].
  apply (find_free_slot_free 0 (snapshot scenario_A_db) 60 (Some (at_hm 738000 10 0)) 7).
  - lia.
  - exact scenario_A_slot.
Defined.

Lemma find_free_slot_window_witness :
  0 ≤ 60 ∧
  find_free_slot 0 (snapshot scenario_A_db) 60 (Some (at_hm 738000 10 0)) 7 =
    Some (at_hm 738000 10 30) ∧
  round_up_to_5min (at_hm 738000 10 0) ≤ at_hm 738000 10 30 ∧
  days (date_of (at_hm 738000 10 30)) + hours 8 ≤ at_hm 738000 10 30 ∧
  date_of (round_up_to_5min (at_hm 738000 10 0)) ≤ date_of (at_hm 738000 10 30)
    < date_of (round_up_to_5min (at_hm 738000 10 0)) + 7.
Proof.
  split; [lia|]. split; [exact scenario_A_slot|].
  apply (find_free_slot_window 0 (snapshot scenario_A_db) 60 (Some (at_hm 738000 10 0)) 7).
  - lia.
  - exact scenario_A_slot.
Defined.

Lemma scenario_A_starts_early ev :
  ev ∈ snapshot scenario_A_db → ev_start ev ≤ days (date_of (ev_start ev)) + hours 21.
Proof.
  intros Hev. apply list_elem_of_In in Hev. vm_compute in Hev.
  destruct Hev as [<-|[<-|[]]]; vm_compute; discriminate.
Defined.

Lemma find_free_slot_in_working_hours_witness :
  0 ≤ 60 ∧
  (∀ ev, ev ∈ snapshot scenario_A_db →
     ev_start ev ≤ days (date_of (ev_start ev)) + hours 21) ∧
  find_free_slot 0 (snapshot scenario_A_db) 60 (Some (at_hm 738000 10 0)) 7 =
    Some (at_hm 738000 10 30) ∧
  in_working_hours (at_hm 738000 10 30) (minutes 60).
Proof.
  split; [lia|]. split; [exact scenario_A_starts_early|]. split; [exact scenario_A_slot|].
  apply (find_free_slot_in_working_hours 0 (snapshot scenario_A_db) 60
           (Some (at_hm 738000 10 0)) 7).
  - lia.
  - exact scenario_A_starts_early.
  - exact scenario_A_slot.
Defined.

Lemma find_free_slot_first_fit_witness :
  0 ≤ 60 ∧
  find_free_slot 0 (snapshot scenario_A_db) 60 (Some (at_hm 738000 10 0)) 7 =
    Some (at_hm 738000 10 30) ∧
  round_up_to_5min (at_hm 738000 10 0) ≤ at_hm 738000 10 15 < at_hm 738000 10 30 ∧
  in_working_hours (at_hm 738000 10 15) (minutes 60) ∧
  blocked (snapshot scenario_A_db) (at_hm 738000 10 15) (minutes 60).
Proof.
  assert (round_up_to_5min (at_hm 738000 10 0) ≤ at_hm 738000 10 15 < at_hm 738000 10 30)
    as Hbetween by (split; vm_compute; discriminate || reflexivity).
  assert (in_working_hours (at_hm 738000 10 15) (minutes 60)) as Hhours
    by (split; vm_compute; discriminate).
  split; [lia|]. split; [exact scenario_A_slot|]. split; [exact Hbetween|].
  split; [exact Hhours|].
  apply (find_free_slot_first_fit 0 (snapshot scenario_A_db) 60
           (Some (at_hm 738000 10 0)) 7 (at_hm 738000 10 30)).
  - lia.
  - exact scenario_A_slot.
  - exact Hbetween.
  - exact Hhours.
Defined.

Lemma find_free_slot_None_witness :
  find_free_slot 0 booked_day 30 (Some (at_hm 738000 8 0)) 1 = None ∧
  round_up_to_5min (at_hm 738000 8 0) ≤ at_hm 738000 9 0 ∧
  date_of (at_hm 738000 9 0) < date_of (round_up_to_5min (at_hm 738000 8 0)) + 1 ∧
  in_working_hours (at_hm 738000 9 0) (minutes 30) ∧
  blocked booked_day (at_hm 738000 9 0) (minutes 30).
Proof.
  assert (find_free_slot 0 booked_day 30 (Some (at_hm 738000 8 0)) 1 = None) as Hnone
    by (vm_compute; reflexivity).
  assert (round_up_to_5min (at_hm 738000 8 0) ≤ at_hm 738000 9 0) as Hle
    by (vm_compute; discriminate).
  assert (date_of (at_hm 738000 9 0) < date_of (round_up_to_5min (at_hm 738000 8 0)) + 1)
    as Hday by (vm_compute; reflexivity).
  assert (in_working_hours (at_hm 738000 9 0) (minutes 30)) as Hhours
    by (split; vm_compute; discriminate).
  split; [exact Hnone|]. split; [exact Hle|]. split; [exact Hday|]. split; [exact Hhours|].
  exact (find_free_slot_None 0 booked_day 30 (Some (at_hm 738000 8 0)) 1
           (at_hm 738000 9 0) Hnone Hle Hday Hhours).
Defined.

Lemma find_free_slot_origin_witness :
  0 ≤ 60 ∧
  find_free_slot 0 (snapshot scenario_A_db) 60 (Some (at_hm 738000 10 0)) 7 =
    Some (at_hm 738000 10 30) ∧
  (at_hm 738000 10 30 = round_up_to_5min (at_hm 738000 10 0) ∨
   at_hm 738000 10 30 = days (date_of (at_hm 738000 10 30)) + hours 8 ∨
   ∃ ev, ev ∈ snapshot scenario_A_db ∧ at_hm 738000 10 30 = ev_end ev).
Proof.
  split; [lia|]. split; [exact scenario_A_slot|].
  apply (find_free_slot_origin 0 (snapshot scenario_A_db) 60 (Some (at_hm 738000 10 0)) 7).
  - lia.
  - exact scenario_A_slot.
Defined.

Lemma round_up_to_5min_least_witness :
  whole_minute (at_hm 738000 10 7) ∧
  at_hm 738000 10 7 ≤ round_up_to_5min (at_hm 738000 10 7) ∧
  on_5min_boundary (round_up_to_5min (at_hm 738000 10 7)) ∧
  ∀ dt', at_hm 738000 10 7 ≤ dt' → on_5min_boundary dt' →
         round_up_to_5min (at_hm 738000 10 7) ≤ dt'.
Proof.
  split; [reflexivity|].
  apply (round_up_to_5min_least (at_hm 738000 10 7)). reflexivity.
Defined.


Lemma scenario_A_suggestions :
  rule_based_suggestions 0 scenario_A_db =
    [SuggestionDict (MoveEvent 2 "Y" (at_hm 738000 9 30) (at_hm 738000 10 30) "")
       (at_hm 738000 10 30) (at_hm 738000 11 30) "Resolve overlap with 'X'"].
Proof. vm_compute. reflexivity. Defined.



Lemma check_conflicts_complete_witness :
  scenario_A_db !! 2 = Some (Row "Y" (at_hm 738000 9 30) (at_hm 738000 10 30) "") ∧
  scenario_A_db !! 1 = Some (Row "X" (at_hm 738000 9 0) (at_hm 738000 10 0) "") ∧
  (2 : Z) ≠ 1 ∧
  windows_overlap (event_of_row 2 (Row "Y" (at_hm 738000 9 30) (at_hm 738000 10 30) ""))
                  (event_of_row 1 (Row "X" (at_hm 738000 9 0) (at_hm 738000 10 0) "")) ∧
  ((event_of_row 2 (Row "Y" (at_hm 738000 9 30) (at_hm 738000 10 30) ""),
    event_of_row 1 (Row "X" (at_hm 738000 9 0) (at_hm 738000 10 0) ""))
     ∈ check_conflicts scenario_A_db ∨
   (event_of_row 1 (Row "X" (at_hm 738000 9 0) (at_hm 738000 10 0) ""),
    event_of_row 2 (Row "Y" (at_hm 738000 9 30) (at_hm 738000 10 30) ""))
     ∈ check_conflicts scenario_A_db).
Proof.
  assert (scenario_A_db !! 2 = Some (Row "Y" (at_hm 738000 9 30) (at_hm 738000 10 30) ""))
    as HY by (vm_compute; reflexivity).
  assert (scenario_A_db !! 1 = Some (Row "X" (at_hm 738000 9 0) (at_hm 738000 10 0) ""))
    as HX by (vm_compute; reflexivity).
  assert ((2 : Z) ≠ 1) as Hne by lia.
  assert (windows_overlap
            (event_of_row 2 (Row "Y" (at_hm 738000 9 30) (at_hm 738000 10 30) ""))
            (event_of_row 1 (Row "X" (at_hm 738000 9 0) (at_hm 738000 10 0) "")))
    as Hov by (split; reflexivity).
  split; [exact HY|]. split; [exact HX|]. split; [exact Hne|]. split; [exact Hov|].
  exact (check_conflicts_complete scenario_A_db 2 _ 1 _ HY HX Hne Hov).
Defined.



Lemma suggestion_slot_is_free_witness :
  whole_minute_table scenario_A_db ∧ well_formed_table scenario_A_db ∧
  (SuggestionDict (MoveEvent 2 "Y" (at_hm 738000 9 30) (at_hm 738000 10 30) "")
     (at_hm 738000 10 30) (at_hm 738000 11 30) "Resolve overlap with 'X'"
     ∈ rule_based_suggestions 0 scenario_A_db) ∧
  "Resolve overlap with 'X'" ≠ reason_no_slot ∧
  ∀ id r, scenario_A_db !! id = Some r →
    date_of (row_start_iso r) = date_of (at_hm 738000 10 30) →
    overlaps (at_hm 738000 10 30) (at_hm 738000 11 30)
             (row_start_iso r) (row_end_iso r) = false.
Proof.
  assert (SuggestionDict (MoveEvent 2 "Y" (at_hm 738000 9 30) (at_hm 738000 10 30) "")
            (at_hm 738000 10 30) (at_hm 738000 11 30) "Resolve overlap with 'X'"
            ∈ rule_based_suggestions 0 scenario_A_db) as Hin
    by (rewrite scenario_A_suggestions; left).
  assert ("Resolve overlap with 'X'" ≠ reason_no_slot) as Hreason by discriminate.
  split; [exact scenario_A_db_whole_minute|]. split; [exact scenario_A_db_well_formed|].
  split; [exact Hin|]. split; [exact Hreason|].
  exact (suggestion_slot_is_free 0 scenario_A_db _ scenario_A_db_whole_minute
           scenario_A_db_well_formed Hin Hreason).
Defined.

Lemma api_apply_suggestion_commute_witness :
  eo_id (move_event scenario_A_accepted) ≠ eo_id (move_event move_X_suggestion) ∧
  (api_apply_suggestion scenario_A_accepted
     (api_apply_suggestion move_X_suggestion scenario_A_db).1).1 =
  (api_apply_suggestion move_X_suggestion
     (api_apply_suggestion scenario_A_accepted scenario_A_db).1).1.
Proof.
  split; [discriminate|].
  apply (api_apply_suggestion_commute scenario_A_accepted move_X_suggestion scenario_A_db).
  discriminate.
Defined.

Lemma api_apply_suggestion_listed_witness :
  scenario_A_db !! eo_id (move_event scenario_A_accepted) =
    Some (Row "Y" (at_hm 738000 9 30) (at_hm 738000 10 30) "") ∧
  ∃ listed,
    get_events (api_apply_suggestion scenario_A_accepted scenario_A_db).1 =
      Returns listed ∧
    length listed = size scenario_A_db ∧
    mkEventOut 2 "Y" (at_hm 738000 10 30) (at_hm 738000 11 30) (Some "") ∈ listed.
Proof.
  assert (scenario_A_db !! eo_id (move_event scenario_A_accepted) =
            Some (Row "Y" (at_hm 738000 9 30) (at_hm 738000 10 30) "")) as Hrow
    by (vm_compute; reflexivity).
  split; [exact Hrow|].
  exact (api_apply_suggestion_listed scenario_A_accepted scenario_A_db _ Hrow).
Defined.

Lemma apply_returned_suggestion_keeps_table_witness :
  whole_minute_table scenario_A_db ∧ well_formed_table scenario_A_db ∧
  api_suggestions false failing_llm 0 scenario_A_db = Returns [scenario_A_accepted] ∧
  whole_minute_table (api_apply_suggestion scenario_A_accepted scenario_A_db).1 ∧
  well_formed_table (api_apply_suggestion scenario_A_accepted scenario_A_db).1.
Proof.
  assert (api_suggestions false failing_llm 0 scenario_A_db = Returns [scenario_A_accepted])
    as Hret by (vm_compute; reflexivity).
  split; [exact scenario_A_db_whole_minute|]. split; [exact scenario_A_db_well_formed|].
  split; [exact Hret|].
  apply (apply_returned_suggestion_keeps_table false failing_llm 0 scenario_A_db
           [scenario_A_accepted] scenario_A_accepted scenario_A_db_whole_minute
           scenario_A_db_well_formed Hret).
  left.
Defined.

Lemma lunch_added :
  add_event lunch_request scenario_A_database =
    (Database (<[3 := Row "lunch" (at_hm 738000 12 0) (at_hm 738000 13 0) ""]> scenario_A_db) 3,
     Returns (mkEventOut 3 "lunch" (at_hm 738000 12 0) (at_hm 738000 13 0) None)).
Proof. vm_compute. reflexivity. Defined.

Lemma scenario_A_database_covered : sequence_covers scenario_A_database.
Proof.
  split; [simpl; lia|]. intros id r Hr. simpl in Hr. unfold scenario_A_db in Hr.
  apply lookup_insert_Some in Hr as [[<- _]|[_ Hr]]; [simpl; lia|].
  apply lookup_singleton_Some in Hr as [<- _]. simpl. lia.
Defined.


Lemma add_event_stored_witness :
  add_event lunch_request scenario_A_database =
    (Database (<[3 := Row "lunch" (at_hm 738000 12 0) (at_hm 738000 13 0) ""]> scenario_A_db) 3,
     Returns (mkEventOut 3 "lunch" (at_hm 738000 12 0) (at_hm 738000 13 0) None)) ∧
  (<[3 := Row "lunch" (at_hm 738000 12 0) (at_hm 738000 13 0) ""]> scenario_A_db) !! 3 =
    Some (Row "lunch" (at_hm 738000 12 0) (at_hm 738000 13 0) "") ∧
  ∃ listed,
    get_events (<[3 := Row "lunch" (at_hm 738000 12 0) (at_hm 738000 13 0) ""]> scenario_A_db)
      = Returns listed ∧
    length listed = 3%nat ∧
    mkEventOut 3 "lunch" (at_hm 738000 12 0) (at_hm 738000 13 0) (Some "") ∈ listed.
Proof.
  split; [exact lunch_added|].
  destruct (add_event_stored lunch_request scenario_A_database _ _ lunch_added)
    as (Hstored & _ & listed & Hlisted & Hlen & Hin).
  split; [exact Hstored|]. exists listed. split_and!; [exact Hlisted|exact Hlen|exact Hin].
Defined.

Lemma add_event_keeps_invariants_witness :
  sequence_covers scenario_A_database ∧
  well_formed_table (db_events scenario_A_database) ∧
  sequence_covers (add_event lunch_request scenario_A_database).1 ∧
  well_formed_table (db_events (add_event lunch_request scenario_A_database).1) ∧
  ∃ out, (add_event lunch_request scenario_A_database).2 = Returns out ∧
         eo_id out = db_sequence scenario_A_database + 1.
Proof.
  split; [exact scenario_A_database_covered|]. split; [exact scenario_A_db_well_formed|].
  destruct (add_event_keeps_invariants lunch_request scenario_A_database
              scenario_A_database_covered scenario_A_db_well_formed)
    as (Hcov & Hwf & Hid).
  split; [exact Hcov|]. split; [exact Hwf|]. apply Hid. reflexivity.
Defined.

Lemma add_event_after_clear_witness :
  ei_start_iso lunch_request < ei_end_iso lunch_request ∧
  add_event lunch_request (api_clear_db scenario_A_database).1 =
    (Database {[1 := Row "lunch" (at_hm 738000 12 0) (at_hm 738000 13 0) ""]} 1,
     Returns (mkEventOut 1 "lunch" (at_hm 738000 12 0) (at_hm 738000 13 0) None)).
Proof.
  split; [reflexivity|].
  apply (add_event_after_clear lunch_request scenario_A_database). reflexivity.
Defined.

Lemma add_event_ids_increase_witness :
  add_event lunch_request scenario_A_database =
    (Database (<[3 := Row "lunch" (at_hm 738000 12 0) (at_hm 738000 13 0) ""]> scenario_A_db) 3,
     Returns (mkEventOut 3 "lunch" (at_hm 738000 12 0) (at_hm 738000 13 0) None)) ∧
  add_event lunch_request
    (Database (<[3 := Row "lunch" (at_hm 738000 12 0) (at_hm 738000 13 0) ""]> scenario_A_db) 3) =
    (Database
       (<[4 := Row "lunch" (at_hm 738000 12 0) (at_hm 738000 13 0) ""]>
          (<[3 := Row "lunch" (at_hm 738000 12 0) (at_hm 738000 13 0) ""]> scenario_A_db)) 4,
     Returns (mkEventOut 4 "lunch" (at_hm 738000 12 0) (at_hm 738000 13 0) None)) ∧
  (3 : Z) < 4.
Proof.
  assert (add_event lunch_request
            (Database (<[3 := Row "lunch" (at_hm 738000 12 0) (at_hm 738000 13 0) ""]>
                         scenario_A_db) 3) =
          (Database
             (<[4 := Row "lunch" (at_hm 738000 12 0) (at_hm 738000 13 0) ""]>
                (<[3 := Row "lunch" (at_hm 738000 12 0) (at_hm 738000 13 0) ""]>
                   scenario_A_db)) 4,
           Returns (mkEventOut 4 "lunch" (at_hm 738000 12 0) (at_hm 738000 13 0) None)))
    as Hsecond by (vm_compute; reflexivity).
  split; [exact lunch_added|]. split; [exact Hsecond|].
  refine (add_event_ids_increase lunch_request lunch_request _ _ _ _ _ _
            lunch_added _ Hsecond).
  simpl. lia.
Defined.

Lemma api_conflicts_empty_iff_witness :
  api_conflicts ({[1 := Row "X" (at_hm 738000 9 0) (at_hm 738000 10 0) ""]} : gmap Z row)
    = Returns [] ∧
  ∀ ia ra ib rb,
    ({[1 := Row "X" (at_hm 738000 9 0) (at_hm 738000 10 0) ""]} : gmap Z row) !! ia = Some ra →
    ({[1 := Row "X" (at_hm 738000 9 0) (at_hm 738000 10 0) ""]} : gmap Z row) !! ib = Some rb →
    ia ≠ ib →
    ¬ windows_overlap (event_of_row ia ra) (event_of_row ib rb).
Proof.
  assert (api_conflicts
            ({[1 := Row "X" (at_hm 738000 9 0) (at_hm 738000 10 0) ""]} : gmap Z row)
          = Returns []) as Hnone by (vm_compute; reflexivity).
  split; [exact Hnone|].
  exact (proj1 (proj1 (api_conflicts_empty_iff false failing_llm 0 _)) Hnone).
Defined.
